(** * dso-vocabulary-replacer: a shallow embedding of [main.py]

    The program reads a text file, replaces the sensitive terms listed in a
    vocabulary file and writes the result to a third file.  This development
    embeds [load_vocabulary], [replace_terms] and [main] together with the
    Python built-ins they rely on ([str.strip], [str.split], [str.replace],
    insertion-ordered [dict], text-mode [open]) and states the properties of
    the specification against that embedding.

    Conventions.
    - A Python [str] is a [string]; a character is a code point below 256.
    - A file holds [list byte]; decoding is delegated to the codec table of
      the environment, the written output is encoded by [utf8_encode].
    - The libraries the program calls but does not contain ([chardet],
      [Faker], the codec registry, the locale, [os.linesep], the text of an
      exception) are the fields of the interface [Env]. *)

From Stdlib.Strings Require Import Ascii String Byte.
From Stdlib Require Import NArith ZArith.
From stdpp Require Import base option list gmap strings.



(** ** Python string built-ins *)

Module PyStr.

(** [ch.isspace()] for the code points below 256. *)
Definition is_space (c : ascii) : bool :=
  let n := N_of_ascii c in
  ((9 <=? n) && (n <=? 13) || (28 <=? n) && (n <=? 32)
   || (n =? 133) || (n =? 160))%N.

Definition is_empty (s : string) : bool :=
  match s with "" => true | String _ _ => false end.

(** [s.lstrip()] *)
Fixpoint lstrip (s : string) : string :=
  match s with
  | "" => ""
  | String c s' => if is_space c then lstrip s' else s
  end.

(** [s.rstrip()] *)
Fixpoint rstrip (s : string) : string :=
  match s with
  | "" => ""
  | String c s' =>
      let r := rstrip s' in
      if is_space c && is_empty r then "" else String c r
  end.

(** [s.strip()] *)
Definition strip (s : string) : string := lstrip (rstrip s).

(** The scan shared by [split] and [replace]: occurrences of [old] are
    taken leftmost first and do not overlap.  [skip] counts the characters
    of the occurrence found last that are still to be passed over. *)
Fixpoint split_from (old : string) (skip : nat) (s : string) : list string :=
  match s with
  | "" => [""]
  | String c s' =>
      match skip with
      | S k => split_from old k s'
      | O =>
          if String.prefix old s
          then "" :: split_from old (Nat.pred (String.length old)) s'
          else match split_from old 0 s' with
               | p :: ps => String c p :: ps
               | [] => [String c ""]
               end
      end
  end.

(** [s.split(sep)] for a non-empty [sep] (Python raises [ValueError] on
    an empty one; the program only ever passes [","]). *)
Definition split (sep s : string) : list string := split_from sep 0 s.

(** [sep.join(pieces)] *)
Fixpoint join (sep : string) (pieces : list string) : string :=
  match pieces with
  | [] => ""
  | [p] => p
  | p :: ps => p +:+ sep +:+ join sep ps
  end.

Fixpoint replace_from (old new : string) (skip : nat) (s : string) : string :=
  match s with
  | "" => ""
  | String c s' =>
      match skip with
      | S k => replace_from old new k s'
      | O =>
          if String.prefix old s
          then new +:+ replace_from old new (Nat.pred (String.length old)) s'
          else String c (replace_from old new 0 s')
      end
  end.

(** With an empty [old], Python puts [new] before every character and at
    the end. *)
Fixpoint intersperse (new s : string) : string :=
  match s with
  | "" => new
  | String c s' => new +:+ String c (intersperse new s')
  end.

(** [s.replace(old, new)] *)
Definition replace (old new s : string) : string :=
  if is_empty old then intersperse new s else replace_from old new 0 s.

End PyStr.

(** ** Text-mode files: newlines and UTF-8 *)

Module TextIO.

Definition LF : ascii := "010"%char.
Definition CR : ascii := "013"%char.

(** Reading with [newline=None]: CR LF and a lone CR both become LF. *)
Fixpoint universal_newlines (s : string) : string :=
  match s with
  | "" => ""
  | String c s' =>
      if Ascii.eqb c CR then
        match s' with
        | String c' s'' =>
            if Ascii.eqb c' LF then String LF (universal_newlines s'')
            else String LF (universal_newlines s')
        | "" => String LF ""
        end
      else String c (universal_newlines s')
  end.

(** Writing with [newline=None]: every LF becomes [os.linesep]. *)
Fixpoint write_newlines (linesep s : string) : string :=
  match s with
  | "" => ""
  | String c s' =>
      if Ascii.eqb c LF then linesep +:+ write_newlines linesep s'
      else String c (write_newlines linesep s')
  end.

(** [for line in f]: the lines of a text, each with its final LF. *)
Fixpoint readlines (s : string) : list string :=
  match s with
  | "" => []
  | String c s' =>
      if Ascii.eqb c LF then String c "" :: readlines s'
      else match readlines s' with
           | l :: ls => String c l :: ls
           | [] => [String c ""]
           end
  end.

(** UTF-8 of a code point below 256: one byte below 128, else the two
    bytes [110000xx 10xxxxxx]. *)
Definition utf8_encode_char (c : ascii) : list byte :=
  let n := N_of_ascii c in
  if (n <? 128)%N then [byte_of_ascii c]
  else [byte_of_ascii (ascii_of_N (N.lor 192 (N.shiftr n 6)));
        byte_of_ascii (ascii_of_N (N.lor 128 (N.land n 63)))].

Fixpoint utf8_encode (s : string) : list byte :=
  match s with
  | "" => []
  | String c s' => utf8_encode_char c ++ utf8_encode s'
  end.

End TextIO.

(** ** The vocabulary: an insertion-ordered [dict] *)

(** [None] is the marker the loader stores for a bare sensitive term. *)
Definition vocabulary : Type := list (string * option string).

(** [d[k] = v]: a key already present keeps its position. *)
Fixpoint dict_set (k : string) (v : option string) (d : vocabulary) : vocabulary :=
  match d with
  | [] => [(k, v)]
  | (k', v') :: d' =>
      if String.eqb k' k then (k', v) :: d' else (k', v') :: dict_set k v d'
  end.

(** [d[k]] *)
Fixpoint dict_get (k : string) (d : vocabulary) : option (option string) :=
  match d with
  | [] => None
  | (k', v') :: d' => if String.eqb k' k then Some v' else dict_get k d'
  end.

Definition dict_keys (d : vocabulary) : list string := d.*1.

(** ** Exceptions, log records, files *)

Inductive exn : Type :=
| FileNotFoundError (path : string)
| IsADirectoryError (path : string)
| NotADirectoryError (path : string)
| PermissionError (path : string)
| LookupError (encoding : string)
| UnicodeDecodeError
| TypeError.

Inductive level : Type := DEBUG | INFO | WARNING | ERROR | CRITICAL.

Definition level_num (l : level) : Z :=
  match l with
  | DEBUG => 10 | INFO => 20 | WARNING => 30 | ERROR => 40 | CRITICAL => 50
  end.

Inductive node : Type :=
| File (data : list byte)   (* a regular file the process may read and write *)
| Denied                    (* a regular file the process may not open *)
| Dir.

(** The directory a path lies in; [None] for the current directory and
    for the root, which always exist.  Paths are taken as normalised. *)
Fixpoint before_last_slash (p : string) : option string :=
  match p with
  | "" => None
  | String c p' =>
      match before_last_slash p' with
      | Some d => Some (String c d)
      | None => if Ascii.eqb c "/" then Some "" else None
      end
  end.

Definition parent (p : string) : option string :=
  match before_last_slash p with
  | Some (String c d) => Some (String c d)
  | _ => None
  end.

(** ** The environment: what the imported libraries and the platform do *)

Class Env : Type := {
  (** [chardet.detect(rawdata)['encoding']] *)
  detect : list byte -> option string;
  (** the codec registry: [None] for a name [open] rejects with
      [LookupError]; a decoder answers [None] on [UnicodeDecodeError] *)
  codec : string -> option (list byte -> option string);
  (** the locale's encoding, which [open(..., encoding=None)] uses *)
  preferred_encoding : string;
  (** [os.linesep] *)
  linesep : string;
  (** the state of Faker's random source and [fake.name()] *)
  faker : Type;
  fake_name : faker -> string * faker;
  (** [str(e)] *)
  exn_text : exn -> string
}.

(** ** The program *)

Section Program.
Context `{Env}.

Record world : Type := World {
  fs : gmap string node;
  threshold : level;               (* level of the root logger *)
  log : list (level * string);     (* records the logger let through *)
  rand : faker
}.

(** Computations that read and change the world and may raise. *)
Definition io (A : Type) : Type := world -> (exn + A) * world.

#[global] Instance io_ret : MRet io := fun A a w => (inr a, w).
#[global] Instance io_bind : MBind io := fun A B f m w =>
  match m w with
  | (inr a, w') => f a w'
  | (inl e, w') => (inl e, w')
  end.

Definition raise {A : Type} (e : exn) : io A := fun w => (inl e, w).

Definition emit (l : level) (msg : string) (w : world) : world :=
  if (level_num (threshold w) <=? level_num l)%Z
  then World (fs w) (threshold w) (log w ++ [(l, msg)]) (rand w)
  else w.

(** [logging.warning], [logging.error], [logging.info] *)
Definition logging (l : level) (msg : string) : io unit :=
  fun w => (inr tt, emit l msg w).

Definition set_fs (m : gmap string node) (w : world) : world :=
  World m (threshold w) (log w) (rand w).

Definition setLevel (l : level) (w : world) : world :=
  World (fs w) l (log w) (rand w).

(** [os.path.exists] *)
Definition path_exists (p : string) (w : world) : bool :=
  bool_decide (is_Some (fs w !! p)).

(** [open(p, 'rb')] followed by [f.read()] *)
Definition open_rb (p : string) : io (list byte) := fun w =>
  match fs w !! p with
  | None => (inl (FileNotFoundError p), w)
  | Some Dir => (inl (IsADirectoryError p), w)
  | Some Denied => (inl (PermissionError p), w)
  | Some (File data) => (inr data, w)
  end.

(** [open(p, 'r', encoding=enc)]: the file is opened, then the codec is
    looked up; nothing is read yet.  The handle is the decoder. *)
Definition open_r (p : string) (enc : option string)
  : io (list byte -> option string) :=
  _ ← open_rb p;
  let name := default preferred_encoding enc in
  match codec name with
  | Some dec => mret dec
  | None => raise (LookupError name)
  end.

(** [open(p, 'w', encoding='utf-8')]: an existing file is emptied, a
    missing one is created when its directory exists. *)
Definition open_w (p : string) : io unit := fun w =>
  let created := (inr tt, set_fs (<[p := File []]> (fs w)) w) in
  match fs w !! p with
  | Some (File _) => created
  | Some Dir => (inl (IsADirectoryError p), w)
  | Some Denied => (inl (PermissionError p), w)
  | None =>
      match parent p with
      | None => created
      | Some d =>
          match fs w !! d with
          | Some Dir => created
          | Some _ => (inl (NotADirectoryError p), w)
          | None => (inl (FileNotFoundError p), w)
          end
      end
  end.

(** [infile.read()] on an open text file: what the file holds now, decoded
    as a whole.  ([for line in f] decodes the file piece by piece; the
    lines are the same, a text that does not decode raises either way.) *)
Definition read (p : string) (dec : list byte -> option string) : io string :=
  fun w =>
    let data := match fs w !! p with Some (File d) => d | _ => [] end in
    match dec data with
    | Some s => (inr (TextIO.universal_newlines s), w)
    | None => (inl UnicodeDecodeError, w)
    end.

(** [outfile.write(text)], flushed when the file is closed. *)
Definition write (p : string) (text : string) : io unit := fun w =>
  let data := TextIO.utf8_encode (TextIO.write_newlines linesep text) in
  (inr tt, set_fs (<[p := File data]> (fs w)) w).

(** [fake.name()] *)
Definition name : io string := fun w =>
  let '(n, g) := fake_name (rand w) in
  (inr n, World (fs w) (threshold w) (log w) g).

(** *** [load_vocabulary] *)

(** The body of [for line in f]. *)
Fixpoint load_lines (lines : list string) (vocab : vocabulary) : io vocabulary :=
  match lines with
  | [] => mret vocab
  | line :: rest =>
      let line := PyStr.strip line in
      if PyStr.is_empty line then load_lines rest vocab
      else
        match PyStr.split "," line with
        | [p0; p1] =>
            let sensitive_term := PyStr.strip p0 in
            let replacement_term := PyStr.strip p1 in
            load_lines rest (dict_set sensitive_term (Some replacement_term) vocab)
        | [p0] =>
            let sensitive_term := PyStr.strip p0 in
            load_lines rest (dict_set sensitive_term None vocab)
        | _ =>
            _ ← logging WARNING
                  ("Invalid line in vocabulary file: " +:+ line +:+ ". Skipping.");
            load_lines rest vocab
        end
  end.

(** The [try] block. *)
Definition load_vocabulary_try (vocabulary_file : string) : io vocabulary :=
  dec ← open_r vocabulary_file (Some "utf-8");
  text ← read vocabulary_file dec;
  load_lines (TextIO.readlines text) [].

Definition load_vocabulary (vocabulary_file : string) (w : world)
  : option vocabulary * world :=
  match load_vocabulary_try vocabulary_file w with
  | (inr vocab, w') => (Some vocab, w')
  | (inl (FileNotFoundError _), w') =>
      (None, emit ERROR ("Vocabulary file not found: " +:+ vocabulary_file) w')
  | (inl e, w') =>
      (None, emit ERROR ("Error loading vocabulary file: " +:+ exn_text e) w')
  end.

(** *** [replace_terms] *)

(** The loop of the [randomize] branch, over the items of the [dict]
    (the keys in order, each with the value stored for it); [inr 1] is its
    [return 1]. *)
Fixpoint randomized_loop (items : vocabulary) (text : string) : io (string + Z) :=
  match items with
  | [] => mret (inl text)
  | (sensitive_term, None) :: rest =>
      n ← name;
      randomized_loop rest (PyStr.replace sensitive_term n text)
  | (sensitive_term, Some _) :: rest =>
      _ ← logging ERROR
            "Vocabulary must only contain sensitive terms when using --randomize";
      mret (inr 1%Z)
  end.

(** The loop of the other branch; [str.replace] rejects [None]. *)
Fixpoint literal_loop (items : vocabulary) (text : string) : io string :=
  match items with
  | [] => mret text
  | (sensitive_term, Some replacement_term) :: rest =>
      literal_loop rest (PyStr.replace sensitive_term replacement_term text)
  | (sensitive_term, None) :: rest => raise TypeError
  end.

(** The [try] block. *)
Definition replace_terms_try (input_file : string) (vocab : vocabulary)
    (output_file : string) (randomize : bool) : io Z :=
  rawdata ← open_rb input_file;
  let encoding := detect rawdata in
  infile ← open_r input_file encoding;
  _ ← open_w output_file;
  text ← read input_file infile;
  r ← (if randomize then randomized_loop vocab text
       else text ← literal_loop vocab text; mret (inl text));
  match r with
  | inr code => mret code
  | inl text =>
      _ ← write output_file text;
      _ ← logging INFO ("Successfully replaced terms in " +:+ input_file
                        +:+ " and saved to " +:+ output_file);
      mret 0%Z
  end.

Definition replace_terms (input_file : string) (vocab : vocabulary)
    (output_file : string) (randomize : bool) (w : world) : Z * world :=
  match replace_terms_try input_file vocab output_file randomize w with
  | (inr code, w') => (code, w')
  | (inl (FileNotFoundError _), w') =>
      (1%Z, emit ERROR ("Input file not found: " +:+ input_file) w')
  | (inl e, w') =>
      (1%Z, emit ERROR ("Error processing file: " +:+ exn_text e) w')
  end.

(** *** [main] *)

Record args : Type := Args {
  input_file : string;
  vocabulary_file : string;
  output_file : string;
  randomize : bool;
  log_level : level
}.

(** The result is the status passed to [sys.exit]. *)
Definition main (a : args) (w : world) : Z * world :=
  let w := setLevel (log_level a) w in
  if negb (path_exists (input_file a) w) then
    (1%Z, emit ERROR ("Input file does not exist: " +:+ input_file a) w)
  else if negb (path_exists (vocabulary_file a) w) then
    (1%Z, emit ERROR ("Vocabulary file does not exist: " +:+ vocabulary_file a) w)
  else
    match load_vocabulary (vocabulary_file a) w with
    | (None, w) => (1%Z, w)
    | (Some vocab, w) =>
        replace_terms (input_file a) vocab (output_file a) (randomize a) w
    end.

End Program.

(** ** A small concrete environment

    ASCII, Latin-1 and the part of UTF-8 below code point 256; a detector
    that answers nothing for an empty file; a name source that cycles
    through three names. *)

Module Sample.

Definition all_ascii (data : list byte) : bool :=
  forallb (fun b => (Byte.to_N b <? 128)%N) data.

Definition decode_ascii (data : list byte) : option string :=
  if all_ascii data then Some (string_of_list_byte data) else None.

Definition decode_latin1 (data : list byte) : option string :=
  Some (string_of_list_byte data).

Fixpoint decode_utf8 (data : list byte) : option string :=
  match data with
  | [] => Some ""
  | b :: rest =>
      let n := Byte.to_N b in
      if (n <? 128)%N then String (ascii_of_byte b) <$> decode_utf8 rest
      else if ((n =? 194) || (n =? 195))%N then
        match rest with
        | b' :: rest' =>
            let n' := Byte.to_N b' in
            if ((128 <=? n') && (n' <? 192))%N
            then String (ascii_of_N (N.lor (N.shiftl (N.land n 3) 6) (N.land n' 63)))
                   <$> decode_utf8 rest'
            else None
        | [] => None
        end
      else None
  end.

Definition sample_detect (data : list byte) : option string :=
  match data with
  | [] => None
  | _ => if all_ascii data then Some "ascii" else Some "ISO-8859-1"
  end.

Definition sample_codec (name : string) : option (list byte -> option string) :=
  if String.eqb name "ascii" then Some decode_ascii
  else if String.eqb name "utf-8" then Some decode_utf8
  else if String.eqb name "ISO-8859-1" then Some decode_latin1
  else None.

Definition sample_name (g : nat) : string * nat :=
  (match g mod 3 with
   | 0 => "Alice Doe"
   | 1 => "Bob Roe"
   | _ => "Carol Poe"
   end, S g).

Definition sample_text (e : exn) : string :=
  match e with
  | FileNotFoundError p => "No such file or directory: " +:+ p
  | IsADirectoryError p => "Is a directory: " +:+ p
  | NotADirectoryError p => "Not a directory: " +:+ p
  | PermissionError p => "Permission denied: " +:+ p
  | LookupError enc => "unknown encoding: " +:+ enc
  | UnicodeDecodeError => "codec can't decode byte"
  | TypeError => "replace() argument 2 must be str, not None"
  end.

Definition env : Env := {|
  detect := sample_detect;
  codec := sample_codec;
  preferred_encoding := "utf-8";
  linesep := String TextIO.LF "";
  faker := nat;
  fake_name := sample_name;
  exn_text := sample_text
|}.

(** The same environment with a detector that never answers. *)
Definition blind : Env := {|
  detect := fun _ => None;
  codec := sample_codec;
  preferred_encoding := "utf-8";
  linesep := String TextIO.LF "";
  faker := nat;
  fake_name := sample_name;
  exn_text := sample_text
|}.

Definition bytes (s : string) : list byte := list_byte_of_string s.

(** The file of the lines given, each ended by a line feed. *)
Definition text_file (lines : list string) : node :=
  File (bytes (PyStr.join "" ((fun l => l +:+ String TextIO.LF "") <$> lines))).

(** A world with the given files, the default log level and an empty log. *)
Definition world_of (files : list (string * node)) : @world env :=
  @World env (list_to_map files) INFO [] 0.

End Sample.

(** ** Notions used to state the properties *)

(** [s[n:]] *)
Fixpoint drop_str (n : nat) (s : string) : string :=
  match n, s with
  | O, _ => s
  | S _, "" => ""
  | S k, String _ s' => drop_str k s'
  end.

(** The number of commas of a line. *)
Fixpoint commas (s : string) : nat :=
  match s with
  | "" => 0
  | String c s' => (if Ascii.eqb c "," then 1 else 0) + commas s'
  end.

(** The key [load_lines] stores for a line it accepts: the trimmed first
    part of the trimmed line. *)
Definition key_of_line (line : string) : string :=
  PyStr.strip (hd "" (PyStr.split "," (PyStr.strip line))).

(** The specification's reading of a vocabulary line, in its words: the
    line is split on the first comma into at most two parts, each trimmed.
    It is compared with what [load_lines] does. *)
Fixpoint cut_first_comma (s : string) : string * option string :=
  match s with
  | "" => ("", None)
  | String c s' =>
      if Ascii.eqb c "," then ("", Some s')
      else let '(a, b) := cut_first_comma s' in (String c a, b)
  end.

Definition spec_entry_first_comma (line : string) : string * option string :=
  let '(a, b) := cut_first_comma (PyStr.strip line) in
  (PyStr.strip a, PyStr.strip <$> b).

Section Draws.
Context `{Env}.

(** The values of [n] successive calls of [fake.name()] and the state of
    the random source after them. *)
Fixpoint draw (n : nat) (g : faker) : list string * faker :=
  match n with
  | O => ([], g)
  | S k =>
      let '(x, g') := fake_name g in
      let '(xs, g'') := draw k g' in
      (x :: xs, g'')
  end.

Definition set_rand (g : faker) (w : world) : world :=
  World (fs w) (threshold w) (log w) g.

(** One [str.replace] per entry, in the order of the entries. *)
Definition replace_all (pairs : list (string * string)) (text : string) : string :=
  fold_left (fun t kv => PyStr.replace kv.1 kv.2 t) pairs text.

(** The entries of a vocabulary that carries no marker. *)
Definition concrete (vocab : vocabulary) : list (string * string) :=
  omap (fun kv => pair kv.1 <$> kv.2) vocab.

Definition encoded (text : string) : list byte :=
  TextIO.utf8_encode (TextIO.write_newlines linesep text).

Definition success_message (input_file output_file : string) : string :=
  "Successfully replaced terms in " +:+ input_file
  +:+ " and saved to " +:+ output_file.

(** The state a run that writes [text] ends in, from the state [w1] in
    which the output file was opened. *)
Definition written (input_file output_file text : string) (w1 : world) : world :=
  emit INFO (success_message input_file output_file)
    (set_fs (<[output_file := File (encoded text)]> (fs w1)) w1).

(** A vocabulary that fits the mode of the run: markers only with
    [--randomize], no marker without it. *)
Definition fits (randomize : bool) (vocab : vocabulary) : Prop :=
  if randomize then Forall (fun kv => kv.2 = None) vocab
  else Forall (fun kv => is_Some kv.2) vocab.

(** The text after all the substitutions of a run whose vocabulary fits
    its mode, with [g] the state of the random source at its start. *)
Definition substituted (randomize : bool) (vocab : vocabulary)
    (text : string) (g : faker) : string :=
  if randomize
  then replace_all (zip vocab.*1 (draw (length vocab) g).1) text
  else replace_all (concrete vocab) text.

(** Every step of [replace_terms] before the substitution works, and
    [infile.read()] gives [text]: the input is a file that can be opened,
    the encoding chosen for it names a codec, the output can be opened for
    writing, and the input decodes. *)
Definition ready (input_file output_file : string) (w : world)
    (text : string) : Prop :=
  exists data dec,
    fs w !! input_file = Some (File data)
    /\ codec (default preferred_encoding (detect data)) = Some dec
    /\ (open_w output_file w).1 = inr tt
    /\ (read input_file dec (open_w output_file w).2).1 = inr text.

End Draws.

(** The entry [load_lines] stores for one line, if any. *)
Definition entry_of_line (line : string) : option (string * option string) :=
  let l := PyStr.strip line in
  if PyStr.is_empty l then None
  else match PyStr.split "," l with
       | [p0; p1] => Some (PyStr.strip p0, Some (PyStr.strip p1))
       | [p0] => Some (PyStr.strip p0, None)
       | _ => None
       end.

(** The lines [load_lines] warns about: not blank, two commas or more. *)
Definition malformed (line : string) : bool :=
  negb (PyStr.is_empty (PyStr.strip line)) && (2 <=? commas (PyStr.strip line)).

Definition warning_text (line : string) : string :=
  "Invalid line in vocabulary file: " +:+ PyStr.strip line +:+ ". Skipping.".

(** [k in t] *)
Fixpoint contains (k t : string) : bool :=
  String.prefix k t
  || match t with
     | "" => false
     | String _ t' => contains k t'
     end.

Section LogOrder.
Context `{Env}.

(** From [w] to [w'] the log level is kept and the log only grows, by
    records at or above that level. *)
Definition log_grows (w w' : world) : Prop :=
  threshold w' = threshold w
  /\ exists recs,
       log w' = log w ++ recs
       /\ Forall (fun r => (level_num (threshold w) <= level_num r.1)%Z) recs.

Definition io_grows {A : Type} (m : io A) : Prop :=
  forall w r w', m w = (r, w') -> log_grows w w'.

End LogOrder.

(** No carriage return in a text. *)
Fixpoint no_cr (s : string) : bool :=
  match s with
  | "" => true
  | String c s' => negb (Ascii.eqb c TextIO.CR) && no_cr s'
  end.

(** ** Facts about the string built-ins *)

Section StrFacts.

Lemma append_nil_l (s : string) : "" +:+ s = s.
Proof. reflexivity. Qed.

Lemma append_cons (c : ascii) (s t : string) :
  String c s +:+ t = String c (s +:+ t).
Proof. reflexivity. Qed.

Lemma append_nil_r (s : string) : s +:+ "" = s.
Proof.
  induction s as [|c s IH]; [done |]. by rewrite append_cons, IH.
Qed.

Lemma append_assoc (a b c : string) : (a +:+ b) +:+ c = a +:+ (b +:+ c).
Proof.
  induction a as [|x a IH]; [done |]. by rewrite !append_cons, IH.
Qed.

Lemma is_empty_true (s : string) : PyStr.is_empty s = true <-> s = "".
Proof. destruct s; simpl; split; intros; done. Qed.

Lemma is_empty_false (s : string) : PyStr.is_empty s = false <-> s <> "".
Proof. destruct s; simpl; split; intros; done. Qed.

Lemma prefix_app (old s : string) :
  String.prefix old s = true <-> exists rest, s = old +:+ rest.
Proof.
  revert old. induction s as [|c s IH]; intros [|d old]; simpl.
  - split; [by exists "" | done].
  - split; [done | by intros [r Hr]].
  - split; [by eexists | done].
  - destruct (ascii_dec d c) as [->|Hne].
    + rewrite IH. split; intros [r Hr]; exists r.
      * by rewrite append_cons, Hr.
      * rewrite append_cons in Hr. congruence.
    + split; [done | intros [r Hr]]. rewrite append_cons in Hr. congruence.
Qed.

Lemma drop_str_app (a rest : string) :
  drop_str (String.length a) (a +:+ rest) = rest.
Proof.
  induction a as [|c a IH]; [by destruct rest |].
  by rewrite append_cons.
Qed.

Lemma split_from_cons (old : string) (skip : nat) (s : string) :
  exists p ps, PyStr.split_from old skip s = p :: ps.
Proof.
  revert skip. induction s as [|c s IH]; intros skip; [by simpl; eauto |].
  cbn [PyStr.split_from]. destruct skip as [|k]; [| apply IH].
  destruct (String.prefix old (String c s)); [by eauto |].
  destruct (IH 0) as (p & ps & ->). by eauto.
Qed.

Lemma join_cons_char (sep : string) (c : ascii) (p : string) (ps : list string) :
  PyStr.join sep (String c p :: ps) = String c (PyStr.join sep (p :: ps)).
Proof. by destruct ps. Qed.

Lemma join_nil_cons (sep p : string) (ps : list string) :
  PyStr.join sep ("" :: p :: ps) = sep +:+ PyStr.join sep (p :: ps).
Proof. done. Qed.

(** [s.replace(old, new)] is [new.join(s.split(old))]. *)
Lemma replace_from_join (old new : string) (skip : nat) (s : string) :
  PyStr.replace_from old new skip s
  = PyStr.join new (PyStr.split_from old skip s).
Proof.
  revert skip. induction s as [|c s IH]; intros skip; [done |].
  cbn [PyStr.replace_from PyStr.split_from].
  destruct skip as [|k]; [| apply IH].
  destruct (String.prefix old (String c s)).
  - destruct (split_from_cons old (Nat.pred (String.length old)) s)
      as (p & ps & Hp).
    rewrite IH, Hp. by rewrite join_nil_cons.
  - destruct (split_from_cons old 0 s) as (p & ps & Hp).
    rewrite IH, Hp. by rewrite join_cons_char.
Qed.

(** [old.join(s.split(old))] is [s]: the pieces are what lies between
    the occurrences of [old]. *)
Lemma join_split_from (old : string) (skip : nat) (s : string) :
  old <> "" ->
  PyStr.join old (PyStr.split_from old skip s) = drop_str skip s.
Proof.
  intros Hold. revert skip. induction s as [|c s IH]; intros skip.
  - by destruct skip.
  - cbn [PyStr.split_from]. destruct skip as [|k]; [| by rewrite IH].
    destruct (String.prefix old (String c s)) eqn:Hpre.
    + destruct (split_from_cons old (Nat.pred (String.length old)) s)
        as (p & ps & Hp).
      rewrite Hp, join_nil_cons, <- Hp, IH.
      apply prefix_app in Hpre as [rest Hrest].
      destruct old as [|d old]; [done |]. rewrite append_cons in Hrest.
      injection Hrest as -> ->. rewrite append_cons. simpl.
      by rewrite drop_str_app.
    + destruct (split_from_cons old 0 s) as (p & ps & Hp).
      rewrite Hp, join_cons_char, <- Hp, IH. done.
Qed.

Lemma replace_join_split (old new s : string) :
  old <> "" ->
  PyStr.replace old new s = PyStr.join new (PyStr.split old s)
  /\ PyStr.join old (PyStr.split old s) = s.
Proof.
  intros Hold. split.
  - unfold PyStr.replace, PyStr.split.
    apply is_empty_false in Hold. rewrite Hold. apply replace_from_join.
  - unfold PyStr.split. by rewrite join_split_from.
Qed.

End StrFacts.

Section StripFacts.

Lemma lstrip_head (s : string) :
  PyStr.lstrip s = ""
  \/ exists c t, PyStr.lstrip s = String c t /\ PyStr.is_space c = false.
Proof.
  induction s as [|c s IH]; [by left |]. simpl.
  destruct (PyStr.is_space c) eqn:Hc; [done | right; by eauto].
Qed.

Lemma rstrip_keep (c : ascii) (s : string) :
  PyStr.is_space c = false ->
  PyStr.rstrip (String c s) = String c (PyStr.rstrip s).
Proof. intros Hc. simpl. by rewrite Hc. Qed.

Lemma rstrip_rstrip (s : string) : PyStr.rstrip (PyStr.rstrip s) = PyStr.rstrip s.
Proof.
  induction s as [|c s IH]; [done |]. simpl.
  destruct (PyStr.is_space c && PyStr.is_empty (PyStr.rstrip s)) eqn:Hc; [done |].
  simpl. by rewrite IH, Hc.
Qed.

Lemma rstrip_tail (c : ascii) (t : string) :
  PyStr.rstrip (String c t) = String c t -> PyStr.rstrip t = t.
Proof.
  simpl. destruct (PyStr.is_space c && PyStr.is_empty (PyStr.rstrip t)); congruence.
Qed.

Lemma rstrip_lstrip (t : string) :
  PyStr.rstrip t = t -> PyStr.rstrip (PyStr.lstrip t) = PyStr.lstrip t.
Proof.
  induction t as [|c t IH]; [done |]. intros Ht.
  cbn [PyStr.lstrip]. destruct (PyStr.is_space c); [| done].
  apply IH. by eapply rstrip_tail.
Qed.

Lemma lstrip_lstrip (t : string) : PyStr.lstrip (PyStr.lstrip t) = PyStr.lstrip t.
Proof.
  induction t as [|c t IH]; [done |]. simpl.
  destruct (PyStr.is_space c) eqn:Hc; [done |]. simpl. by rewrite Hc.
Qed.

(** [s.strip().strip() == s.strip()] *)
Lemma strip_strip (s : string) : PyStr.strip (PyStr.strip s) = PyStr.strip s.
Proof.
  unfold PyStr.strip.
  rewrite (rstrip_lstrip (PyStr.rstrip s)) by apply rstrip_rstrip.
  apply lstrip_lstrip.
Qed.

(** A stripped string that is not empty starts with a visible character. *)
Lemma strip_head (s : string) :
  PyStr.strip s = ""
  \/ exists c t, PyStr.strip s = String c t /\ PyStr.is_space c = false.
Proof. apply lstrip_head. Qed.

Lemma strip_visible_head (c : ascii) (p : string) :
  PyStr.is_space c = false ->
  PyStr.strip (String c p) = String c (PyStr.rstrip p).
Proof.
  intros Hc. unfold PyStr.strip. rewrite rstrip_keep by done.
  simpl. by rewrite Hc.
Qed.

End StripFacts.

Section CommaFacts.

Lemma prefix_comma (c : ascii) (s : string) :
  String.prefix "," (String c s) = Ascii.eqb c ",".
Proof.
  destruct (Ascii.eqb_spec c ",") as [->|Hne].
  - apply prefix_app. by exists s.
  - apply not_true_is_false. intros [r Hr]%prefix_app.
    rewrite append_cons in Hr. congruence.
Qed.

Lemma split_comma_cons (c : ascii) (s : string) :
  PyStr.split "," (String c s)
  = if Ascii.eqb c "," then "" :: PyStr.split "," s
    else match PyStr.split "," s with
         | p :: ps => String c p :: ps
         | [] => [String c ""]
         end.
Proof.
  unfold PyStr.split. cbn [PyStr.split_from]. by rewrite prefix_comma.
Qed.

(** One more part than there are commas. *)
Lemma split_comma_length (s : string) :
  length (PyStr.split "," s) = S (commas s).
Proof.
  induction s as [|c s IH]; [done |].
  rewrite split_comma_cons. cbn [commas].
  destruct (Ascii.eqb c ","); [by rewrite length_cons, IH |].
  destruct (PyStr.split "," s); [done |]. simpl in *. lia.
Qed.

Lemma split_comma_join (s : string) :
  PyStr.join "," (PyStr.split "," s) = s.
Proof. by apply replace_join_split. Qed.

Lemma split_comma_none (s : string) :
  commas s = 0 -> PyStr.split "," s = [s].
Proof.
  intros Hc. pose proof (split_comma_length s) as Hl.
  pose proof (split_comma_join s) as Hj. rewrite Hc in Hl.
  destruct (PyStr.split "," s) as [|p [|q ps]]; simplify_eq/=. done.
Qed.

Lemma split_comma_one (s : string) :
  commas s = 1 ->
  exists a b, PyStr.split "," s = [a; b] /\ s = a +:+ "," +:+ b.
Proof.
  intros Hc. pose proof (split_comma_length s) as Hl.
  pose proof (split_comma_join s) as Hj. rewrite Hc in Hl.
  destruct (PyStr.split "," s) as [|p [|q [|r ps]]]; simplify_eq/=.
  by exists p, q.
Qed.

Lemma split_comma_many (s : string) :
  2 <= commas s ->
  exists a b c ps, PyStr.split "," s = a :: b :: c :: ps.
Proof.
  intros Hc. pose proof (split_comma_length s) as Hl.
  destruct (PyStr.split "," s) as [|p [|q [|r ps]]]; simpl in Hl; try lia.
  by eauto.
Qed.

(** The first part of a line is empty exactly when the line starts with
    a comma. *)
Lemma split_comma_head (c : ascii) (s : string) :
  exists p ps,
    PyStr.split "," (String c s) = p :: ps
    /\ (if Ascii.eqb c "," then p = "" else exists p', p = String c p').
Proof.
  rewrite split_comma_cons. destruct (Ascii.eqb c ","); [by eauto |].
  destruct (PyStr.split "," s); by eauto.
Qed.

End CommaFacts.

(** ** Facts about the program *)

Ltac io_simpl :=
  unfold mbind, mret, io_bind, io_ret, raise, logging in *; cbn beta iota in *.

Section ProgramFacts.
Context `{Env}.

Lemma emit_fs (l : level) (msg : string) (w : world) : fs (emit l msg w) = fs w.
Proof. unfold emit. by destruct (_ <=? _)%Z. Qed.

Lemma emit_rand (l : level) (msg : string) (w : world) :
  rand (emit l msg w) = rand w.
Proof. unfold emit. by destruct (_ <=? _)%Z. Qed.

Lemma emit_threshold (l : level) (msg : string) (w : world) :
  threshold (emit l msg w) = threshold w.
Proof. unfold emit. by destruct (_ <=? _)%Z. Qed.

(** *** The loader *)

Lemma load_lines_blank (line : string) (rest : list string)
    (vocab : vocabulary) (w : world) :
  PyStr.strip line = "" ->
  load_lines (line :: rest) vocab w = load_lines rest vocab w.
Proof. intros Hl. cbn [load_lines]. by rewrite Hl. Qed.

Lemma load_lines_parts (line : string) (rest : list string)
    (vocab : vocabulary) (w : world) :
  PyStr.strip line <> "" ->
  load_lines (line :: rest) vocab w
  = match PyStr.split "," (PyStr.strip line) with
    | [p0; p1] =>
        load_lines rest (dict_set (PyStr.strip p0) (Some (PyStr.strip p1)) vocab) w
    | [p0] => load_lines rest (dict_set (PyStr.strip p0) None vocab) w
    | _ =>
        load_lines rest vocab
          (emit WARNING ("Invalid line in vocabulary file: "
                         +:+ PyStr.strip line +:+ ". Skipping.") w)
    end.
Proof.
  intros Hl%is_empty_false. cbn [load_lines]. rewrite Hl.
  destruct (PyStr.split "," (PyStr.strip line)) as [|p0 [|p1 [|p2 ps]]]; done.
Qed.

(** The loop over the lines never raises and only touches the log. *)
Lemma load_lines_total (lines : list string) (vocab : vocabulary) (w : world) :
  exists vocab' w',
    load_lines lines vocab w = (inr vocab', w')
    /\ fs w' = fs w /\ rand w' = rand w /\ threshold w' = threshold w.
Proof.
  revert vocab w. induction lines as [|line rest IH]; intros vocab w.
  - by exists vocab, w.
  - destruct (decide (PyStr.strip line = "")) as [Hl|Hl].
    + rewrite load_lines_blank by done. apply IH.
    + rewrite load_lines_parts by done.
      destruct (PyStr.split "," (PyStr.strip line)) as [|p0 [|p1 [|p2 ps]]];
        try apply IH.
      all: edestruct IH as (v' & w' & -> & Hfs & Hr & Ht);
        exists v', w'; rewrite Hfs, Hr, Ht, ?emit_fs, ?emit_rand, ?emit_threshold;
        done.
Qed.

Lemma dict_set_keys (k : string) (v : option string) (d : vocabulary) (k' : string) :
  k' ∈ dict_keys (dict_set k v d) -> k' = k \/ k' ∈ dict_keys d.
Proof.
  unfold dict_keys. induction d as [|[k0 v0] d IH]; simpl.
  - intros ->%list_elem_of_singleton. by left.
  - destruct (String.eqb_spec k0 k) as [->|Hne]; simpl.
    + intros Hin. by right.
    + intros [->|Hin]%elem_of_cons; [right; left |].
      destruct (IH Hin) as [->|Hd]; [by left | right; by right].
Qed.

Lemma load_lines_keys (lines : list string) (vocab vocab' : vocabulary)
    (w w' : world) (k : string) :
  load_lines lines vocab w = (inr vocab', w') ->
  k ∈ dict_keys vocab' ->
  k ∈ dict_keys vocab
  \/ exists line, line ∈ lines /\ PyStr.strip line <> "" /\ k = key_of_line line.
Proof.
  revert vocab w. induction lines as [|line rest IH]; intros vocab w Hload Hk.
  - injection Hload as <- <-. by left.
  - destruct (decide (PyStr.strip line = "")) as [Hl|Hl].
    + rewrite load_lines_blank in Hload by done.
      destruct (IH _ _ Hload Hk) as [?|(l & Hin & ?)]; [by left |].
      right. exists l. split; [by right | done].
    + rewrite load_lines_parts in Hload by done.
      assert (Hrest : forall v0 w0,
                 load_lines rest v0 w0 = (inr vocab', w') ->
                 (forall k0, k0 ∈ dict_keys v0 ->
                             k0 ∈ dict_keys vocab \/ k0 = key_of_line line) ->
                 k ∈ dict_keys vocab
                 \/ exists l, l ∈ line :: rest /\ PyStr.strip l <> ""
                              /\ k = key_of_line l).
      { intros v0 w0 Hl0 Hv0.
        destruct (IH _ _ Hl0 Hk) as [Hin|(l & Hin & ?)].
        - destruct (Hv0 _ Hin) as [?| ->]; [by left |].
          right. exists line. split; [by left | done].
        - right. exists l. split; [by right | done]. }
      unfold key_of_line in Hrest.
      destruct (PyStr.split "," (PyStr.strip line)) as [|p0 [|p1 [|p2 ps]]];
        (eapply Hrest; [exact Hload |]); intros k0 Hk0;
        try (by left);
        apply dict_set_keys in Hk0 as [->|?]; [by right | by left | by right | by left].
Qed.

Lemma key_of_line_empty (line : string) :
  PyStr.strip line <> "" ->
  key_of_line line = "" <-> String.prefix "," (PyStr.strip line) = true.
Proof.
  intros Hl. unfold key_of_line.
  destruct (strip_head line) as [?|(c & t & Hs & Hc)]; [done |].
  rewrite Hs, prefix_comma.
  destruct (split_comma_head c t) as (p & ps & -> & Hp). simpl.
  destruct (Ascii.eqb c ","); [by subst |].
  destruct Hp as [p' ->]. by rewrite strip_visible_head.
Qed.

(** The keys of a [dict] are distinct, and then looking a key up gives the
    value it is listed with: the loop [for k in d: ... d[k] ...] of
    [replace_terms] goes through the items. *)
Lemma dict_set_fresh (k : string) (v : option string) (d : vocabulary) :
  k ∉ dict_keys d -> dict_keys (dict_set k v d) = dict_keys d ++ [k].
Proof.
  unfold dict_keys. induction d as [|[k0 v0] d IH]; [done |]. cbn.
  intros [Hne Hd]%not_elem_of_cons.
  destruct (String.eqb_spec k0 k) as [->|_]; [done |].
  cbn. by rewrite IH.
Qed.

Lemma dict_set_present (k : string) (v : option string) (d : vocabulary) :
  k ∈ dict_keys d -> dict_keys (dict_set k v d) = dict_keys d.
Proof.
  unfold dict_keys. induction d as [|[k0 v0] d IH]; cbn.
  - by intros ?%elem_of_nil.
  - intros Hin. destruct (String.eqb_spec k0 k) as [->|Hne]; [done |].
    cbn. rewrite IH; [done |].
    apply elem_of_cons in Hin as [?|?]; [congruence | done].
Qed.

Lemma dict_set_nodup (k : string) (v : option string) (d : vocabulary) :
  NoDup (dict_keys d) -> NoDup (dict_keys (dict_set k v d)).
Proof.
  intros Hd. destruct (decide (k ∈ dict_keys d)) as [Hin|Hout].
  - by rewrite dict_set_present.
  - rewrite dict_set_fresh by done. apply NoDup_app. split; [done |].
    split; [| apply NoDup_singleton].
    intros x Hx ->%list_elem_of_singleton. done.
Qed.

Lemma dict_get_item (k : string) (v : option string) (d : vocabulary) :
  NoDup (dict_keys d) -> (k, v) ∈ d -> dict_get k d = Some v.
Proof.
  unfold dict_keys. induction d as [|[k0 v0] d IH]; cbn.
  - by intros _ ?%elem_of_nil.
  - intros [Hk0 Hd]%NoDup_cons [Heq|Hin]%elem_of_cons.
    + injection Heq as -> ->. by rewrite String.eqb_refl.
    + destruct (String.eqb_spec k0 k) as [->|_]; [| by apply IH].
      exfalso. apply Hk0. apply list_elem_of_fmap. by exists (k, v).
Qed.

Lemma load_lines_nodup (lines : list string) (vocab vocab' : vocabulary)
    (w w' : world) :
  NoDup (dict_keys vocab) ->
  load_lines lines vocab w = (inr vocab', w') ->
  NoDup (dict_keys vocab').
Proof.
  revert vocab w. induction lines as [|line rest IH]; intros vocab w Hd Hload.
  - by injection Hload as <- <-.
  - destruct (decide (PyStr.strip line = "")) as [Hl|Hl].
    + rewrite load_lines_blank in Hload by done. by eapply IH.
    + rewrite load_lines_parts in Hload by done.
      destruct (PyStr.split "," (PyStr.strip line)) as [|p0 [|p1 [|p2 ps]]];
        (eapply IH; [| exact Hload]); by try apply dict_set_nodup.
Qed.

End ProgramFacts.

Section RunFacts.
Context `{Env}.

(** *** The two substitution loops *)

Lemma concrete_cons_some (k r : string) (vocab : vocabulary) :
  concrete ((k, Some r) :: vocab) = (k, r) :: concrete vocab.
Proof. done. Qed.

Lemma literal_loop_concrete (vocab : vocabulary) (text : string) (w : world) :
  Forall (fun kv => is_Some kv.2) vocab ->
  literal_loop vocab text w = (inr (replace_all (concrete vocab) text), w).
Proof.
  intros Hall. revert text.
  induction Hall as [|[k [r|]] vocab [r' Hr] _ IH]; intros text;
    simplify_eq/=; [done |].
  rewrite IH. done.
Qed.

Lemma literal_loop_fails (vocab : vocabulary) (k : string)
    (text : string) (w : world) :
  (k, None) ∈ vocab -> literal_loop vocab text w = (inl TypeError, w).
Proof.
  intros Hin. revert text.
  induction vocab as [|[k0 [r|]] vocab IH]; intros text.
  - by apply elem_of_nil in Hin.
  - apply elem_of_cons in Hin as [?|Hin]; [done |]. simpl. by apply IH.
  - done.
Qed.

Lemma name_run (w : world) :
  name w = (inr (fake_name (rand w)).1, set_rand (fake_name (rand w)).2 w).
Proof. unfold name, set_rand. by destruct (fake_name (rand w)). Qed.

Lemma randomized_loop_markers (pre rest : vocabulary) (text : string) (w : world) :
  Forall (fun kv => kv.2 = None) pre ->
  randomized_loop (pre ++ rest) text w
  = randomized_loop rest
      (replace_all (zip pre.*1 (draw (length pre) (rand w)).1) text)
      (set_rand (draw (length pre) (rand w)).2 w).
Proof.
  intros Hall. revert text w.
  induction Hall as [|[k v] pre Hv _ IH]; intros text w.
  - by destruct w.
  - simpl in Hv. subst v. cbn [app randomized_loop]. io_simpl.
    rewrite name_run, IH. cbn [length draw fmap list_fmap].
    destruct (fake_name (rand w)) as [x g] eqn:Hx. cbn [fst snd set_rand rand].
    destruct (draw (length pre) g) as [xs g'] eqn:Hd.
    cbn [fst snd zip zip_with replace_all fold_left]. done.
Qed.

Lemma draw_length (n : nat) (g : faker) : length (draw n g).1 = n.
Proof.
  revert g. induction n as [|n IH]; intros g; [done |]. simpl.
  destruct (fake_name g) as [x g']. specialize (IH g').
  destruct (draw n g') as [xs g'']. simpl in *. by rewrite IH.
Qed.

Lemma randomized_loop_all_markers (vocab : vocabulary) (text : string) (w : world) :
  Forall (fun kv => kv.2 = None) vocab ->
  randomized_loop vocab text w
  = (inr (inl (replace_all (zip vocab.*1 (draw (length vocab) (rand w)).1) text)),
     set_rand (draw (length vocab) (rand w)).2 w).
Proof.
  intros Hall. pose proof (randomized_loop_markers vocab [] text w Hall) as Hm.
  by rewrite app_nil_r in Hm.
Qed.

End RunFacts.

Section WholeRun.
Context `{Env}.

Lemma randomized_loop_cases (vocab : vocabulary) (text : string) (w : world) :
  (exists t w', randomized_loop vocab text w = (inr (inl t), w')
                /\ Forall (fun kv => kv.2 = None) vocab)
  \/ (exists w', randomized_loop vocab text w = (inr (inr 1%Z), w')
                 /\ exists k r, (k, Some r) ∈ vocab).
Proof.
  revert text w. induction vocab as [|[k [r|]] vocab IH]; intros text w.
  - left. by eexists _, _.
  - right. eexists. split; [done |]. exists k, r. by left.
  - cbn [randomized_loop]. io_simpl. rewrite name_run.
    edestruct IH as [(t & w' & -> & Hall)|(w' & -> & k' & r' & Hin)].
    + left. eexists _, _. split; [done |]. by constructor.
    + right. eexists. split; [done |]. exists k', r'. by right.
Qed.

Lemma literal_loop_cases (vocab : vocabulary) (text : string) (w : world) :
  (exists t, literal_loop vocab text w = (inr t, w)
             /\ Forall (fun kv => is_Some kv.2) vocab)
  \/ (literal_loop vocab text w = (inl TypeError, w)
      /\ exists k, (k, None) ∈ vocab).
Proof.
  revert text. induction vocab as [|[k [r|]] vocab IH]; intros text.
  - left. by eexists.
  - cbn [literal_loop].
    destruct (IH (PyStr.replace k r text)) as [(t & -> & Hall)|(-> & k' & Hin)].
    + left. eexists. split; [done |]. constructor; [by eexists | done].
    + right. split; [done |]. exists k'. by right.
  - right. split; [done |]. exists k. by left.
Qed.

(** The run up to the two loops, when every step before them works. *)
Lemma replace_terms_try_loop (input_file output_file : string)
    (vocab : vocabulary) (randomize : bool) (w w1 : world)
    (data : list byte) (dec : list byte -> option string) (text : string) :
  fs w !! input_file = Some (File data) ->
  codec (default preferred_encoding (detect data)) = Some dec ->
  open_w output_file w = (inr tt, w1) ->
  (read input_file dec w1).1 = inr text ->
  replace_terms_try input_file vocab output_file randomize w
  = match (if randomize then randomized_loop vocab text
           else (t ← literal_loop vocab text; mret (inl t))) w1 with
    | (inr (inl t), w2) => (inr 0%Z, written input_file output_file t w2)
    | (inr (inr code), w2) => (inr code, w2)
    | (inl e, w2) => (inl e, w2)
    end.
Proof.
  intros Hin Hcodec Hopen Hread.
  unfold replace_terms_try, open_r. io_simpl.
  unfold open_rb. rewrite !Hin. cbn beta iota. rewrite Hcodec. cbn beta iota.
  rewrite Hopen.
  assert (read input_file dec w1 = (inr text, w1)) as ->.
  { revert Hread. unfold read. destruct (dec _); simpl; congruence. }
  destruct randomize.
  - destruct (randomized_loop vocab text w1) as [[e|[t|code]] w2]; done.
  - destruct (literal_loop vocab text w1) as [[e|t] w2]; done.
Qed.

(** A run in literal mode over a vocabulary without markers. *)
Lemma replace_terms_literal (input_file output_file : string)
    (vocab : vocabulary) (w w1 : world)
    (data : list byte) (dec : list byte -> option string) (text : string) :
  fs w !! input_file = Some (File data) ->
  codec (default preferred_encoding (detect data)) = Some dec ->
  open_w output_file w = (inr tt, w1) ->
  (read input_file dec w1).1 = inr text ->
  Forall (fun kv => is_Some kv.2) vocab ->
  replace_terms input_file vocab output_file false w
  = (0%Z, written input_file output_file (replace_all (concrete vocab) text) w1).
Proof.
  intros Hin Hcodec Hopen Hread Hall. unfold replace_terms.
  erewrite replace_terms_try_loop by done. io_simpl.
  by rewrite literal_loop_concrete.
Qed.

Lemma written_lookup (input_file output_file text : string) (w1 : world) :
  fs (written input_file output_file text w1) !! output_file
  = Some (File (encoded text)).
Proof. unfold written. rewrite emit_fs. simpl. apply lookup_insert_eq. Qed.

Lemma open_w_fs (p : string) (w w1 : world) :
  open_w p w = (inr tt, w1) -> fs w1 = <[p := File []]> (fs w).
Proof.
  unfold open_w. intros Ho.
  repeat case_match; simplify_eq; done.
Qed.

(** Reading a file other than the one just opened for writing. *)
Lemma read_other (input_file output_file : string) (w w1 : world)
    (data : list byte) (dec : list byte -> option string) (s : string) :
  input_file <> output_file ->
  fs w !! input_file = Some (File data) ->
  open_w output_file w = (inr tt, w1) ->
  dec data = Some s ->
  (read input_file dec w1).1 = inr (TextIO.universal_newlines s).
Proof.
  intros Hne Hin Hopen Hdec. unfold read.
  rewrite (open_w_fs _ _ _ Hopen), lookup_insert_ne, Hin, Hdec by done. done.
Qed.

(** What a run can end in. *)
Lemma replace_terms_try_cases (input_file output_file : string)
    (vocab : vocabulary) (randomize : bool) (w : world) :
  (exists e w', replace_terms_try input_file vocab output_file randomize w
                = (inl e, w'))
  \/ (exists w', replace_terms_try input_file vocab output_file randomize w
                 = (inr 1%Z, w')
                 /\ randomize = true /\ exists k r, (k, Some r) ∈ vocab)
  \/ (exists t w2, replace_terms_try input_file vocab output_file randomize w
                   = (inr 0%Z, written input_file output_file t w2)
                   /\ if randomize then Forall (fun kv => kv.2 = None) vocab
                      else Forall (fun kv => is_Some kv.2) vocab).
Proof.
  unfold replace_terms_try, open_r. io_simpl.
  destruct (open_rb input_file w) as [[e|data] w0]; [left; by eauto |].
  destruct (open_rb input_file w0) as [[e|data'] w0']; [left; by eauto |].
  destruct (codec _) as [dec|]; [| left; by eauto].
  destruct (open_w output_file w0') as [[e|[]] w1]; [left; by eauto |].
  destruct (read input_file dec w1) as [[e|text] w1']; [left; by eauto |].
  destruct randomize.
  - destruct (randomized_loop_cases vocab text w1')
      as [(t & w2 & -> & Hall)|(w2 & -> & Hin)].
    + right; right. by eexists _, _.
    + right; left. by eauto.
  - destruct (literal_loop_cases vocab text w1') as [(t & -> & Hall)|[-> _]].
    + right; right. by eexists _, _.
    + left. by eauto.
Qed.

Lemma replace_terms_code (input_file output_file : string)
    (vocab : vocabulary) (randomize : bool) (w : world) :
  (exists w', replace_terms input_file vocab output_file randomize w = (1%Z, w'))
  \/ (exists t w2, replace_terms input_file vocab output_file randomize w
                   = (0%Z, written input_file output_file t w2)
                   /\ if randomize then Forall (fun kv => kv.2 = None) vocab
                      else Forall (fun kv => is_Some kv.2) vocab).
Proof.
  unfold replace_terms.
  destruct (replace_terms_try_cases input_file output_file vocab randomize w)
    as [(e & w' & ->)|[(w' & -> & _)|(t & w2 & -> & Hall)]].
  - left. destruct e; by eauto.
  - left. by eauto.
  - right. by eauto.
Qed.

(** A marker in literal mode, a literal in randomized mode: result 1. *)
Lemma replace_terms_mismatch (input_file output_file : string)
    (vocab : vocabulary) (randomize : bool) (w : world) (k : string)
    (v : option string) :
  (k, v) ∈ vocab ->
  (if randomize then is_Some v else v = None) ->
  exists w', replace_terms input_file vocab output_file randomize w = (1%Z, w').
Proof.
  intros Hin Hv.
  destruct (replace_terms_code input_file output_file vocab randomize w)
    as [?|(t & w2 & _ & Hall)]; [done |].
  exfalso. destruct randomize.
  - apply (proj1 (Forall_forall _ _)) with (x := (k, v)) in Hall; [| done].
    simpl in Hall. subst v. by destruct Hv.
  - apply (proj1 (Forall_forall _ _)) with (x := (k, v)) in Hall; [| done].
    simpl in Hall. subst v. by destruct Hall.
Qed.

(** A run whose steps before the substitution work and whose vocabulary
    fits the mode returns 0 and writes the substituted text. *)
Lemma replace_terms_success (input_file output_file : string)
    (vocab : vocabulary) (randomize : bool) (w : world) (text : string) :
  ready input_file output_file w text ->
  fits randomize vocab ->
  (replace_terms input_file vocab output_file randomize w).1 = 0%Z
  /\ fs (replace_terms input_file vocab output_file randomize w).2 !! output_file
     = Some (File (encoded (substituted randomize vocab text (rand w)))).
Proof.
  intros (data & dec & Hin & Hcodec & Hopen & Hread) Hfits.
  assert (rand (open_w output_file w).2 = rand w) as Hrand.
  { unfold open_w. repeat case_match; done. }
  destruct (open_w output_file w) as [r1 w1] eqn:Ho. cbn [fst snd] in *. subst r1.
  unfold replace_terms. erewrite replace_terms_try_loop by done.
  destruct randomize; cbn [fits substituted] in *.
  - rewrite randomized_loop_all_markers, Hrand by done. cbn [fst snd].
    split; [done | apply written_lookup].
  - io_simpl. rewrite literal_loop_concrete by done. cbn [fst snd].
    split; [done | apply written_lookup].
Qed.

(** The result is 0 only for such a run. *)
Lemma replace_terms_zero (input_file output_file : string)
    (vocab : vocabulary) (randomize : bool) (w : world) :
  (replace_terms input_file vocab output_file randomize w).1 = 0%Z ->
  (exists text, ready input_file output_file w text) /\ fits randomize vocab.
Proof.
  intros Hzero. split.
  - revert Hzero. unfold replace_terms, replace_terms_try, open_r, open_rb, ready.
    io_simpl. cbn zeta.
    destruct (fs w !! input_file) as [[data| |]|] eqn:Hin;
      try (cbn; intros; discriminate).
    rewrite ?Hin. cbn beta iota zeta.
    destruct (codec (default preferred_encoding (detect data))) as [dec|] eqn:Hc;
      [| cbn; intros; discriminate].
    destruct (open_w output_file w) as [[e|[]] w1] eqn:Ho;
      [destruct e; cbn; intros; discriminate |].
    destruct (read input_file dec w1) as [[e|text] w2] eqn:Hr;
      [destruct e; cbn; intros; discriminate |].
    intros _. exists text, data, dec. cbn [fst snd]. by rewrite Hr.
  - destruct (replace_terms_code input_file output_file vocab randomize w)
      as [(w' & Hr)|(t & w2 & _ & Hall)]; [| done].
    rewrite Hr in Hzero. done.
Qed.

(** The result is 0 exactly when the steps before the substitution work
    and the vocabulary fits the mode; in every other case it is 1. *)
Lemma replace_terms_zero_iff (input_file output_file : string)
    (vocab : vocabulary) (randomize : bool) (w : world) :
  ((replace_terms input_file vocab output_file randomize w).1 = 0%Z <->
   (exists text, ready input_file output_file w text) /\ fits randomize vocab)
  /\ ((replace_terms input_file vocab output_file randomize w).1 = 1%Z <->
      ~ ((exists text, ready input_file output_file w text)
         /\ fits randomize vocab)).
Proof.
  assert ((replace_terms input_file vocab output_file randomize w).1 = 0%Z <->
          (exists text, ready input_file output_file w text)
          /\ fits randomize vocab) as Hiff.
  { split; [apply replace_terms_zero |].
    intros [[text Hready] Hfits].
    by destruct (replace_terms_success _ _ _ _ _ _ Hready Hfits). }
  split; [done |]. rewrite <- Hiff.
  destruct (replace_terms_code input_file output_file vocab randomize w)
    as [(w' & ->)|(t & w2 & -> & _)]; cbn [fst]; split; done.
Qed.

End WholeRun.

(** ** The properties of the specification *)

Section Substitution.
Context `{Env}.

Lemma open_w_ok (p : string) (w : world) :
  (open_w p w).1 = inr tt -> open_w p w = (inr tt, (open_w p w).2).
Proof. destruct (open_w p w) as [[e|[]] w1]; simpl; congruence. Qed.

Lemma written_other (inp out text p : string) (w w1 : world) :
  open_w out w = (inr tt, w1) -> p <> out ->
  fs (written inp out text w1) !! p = fs w !! p.
Proof.
  intros Ho Hp. unfold written. rewrite emit_fs. simpl.
  rewrite lookup_insert_ne, (open_w_fs _ _ _ Ho), lookup_insert_ne by done.
  done.
Qed.

Lemma concrete_keys (vocab : vocabulary) :
  Forall (fun kv => kv.1 <> "") vocab ->
  Forall (fun kv => kv.1 <> "") (concrete vocab).
Proof.
  induction 1 as [|[k [r|]] vocab Hk _ IH]; [by constructor | |].
  - rewrite concrete_cons_some. by constructor.
  - exact IH.
Qed.

Lemma replace_all_join (pairs : list (string * string)) (text : string) :
  Forall (fun kv => kv.1 <> "") pairs ->
  replace_all pairs text
  = fold_left (fun t kv => PyStr.join kv.2 (PyStr.split kv.1 t)) pairs text.
Proof.
  intros Hall. revert text. unfold replace_all.
  induction Hall as [|[k r] pairs Hk _ IH]; intros text; [done |].
  cbn [fold_left fst snd]. rewrite IH.
  by destruct (replace_join_split k r text Hk) as [-> _].
Qed.

(** C1. In literal mode every entry is applied in the order of the
    vocabulary, each replacing all the non-overlapping occurrences of its
    sensitive term (the text between the occurrences is kept and joined
    again with the replacement).  For an input file that decodes to
    "Hello, John Smith. John Smith said hi." and the one-entry vocabulary
    John Smith -> REDACTED the run returns 0, the output file holds
    "Hello, REDACTED. REDACTED said hi." and no other file changes. *)
Theorem C1_literal_mode_replaces_every_occurrence
    (inp out : string) (w : world) (data : list byte)
    (dec : list byte -> option string) :
  inp <> out ->
  fs w !! inp = Some (File data) ->
  codec (default preferred_encoding (detect data)) = Some dec ->
  dec data = Some "Hello, John Smith. John Smith said hi." ->
  (open_w out w).1 = inr tt ->
  (exists w',
      replace_terms inp [("John Smith", Some "REDACTED")] out false w = (0%Z, w')
      /\ fs w' !! out
         = Some (File (TextIO.utf8_encode "Hello, REDACTED. REDACTED said hi."))
      /\ forall p, p <> out -> fs w' !! p = fs w !! p)
  /\ (forall (vocab : vocabulary) (text : string) (w0 : world),
         Forall (fun kv => is_Some kv.2) vocab ->
         Forall (fun kv => kv.1 <> "") vocab ->
         literal_loop vocab text w0
         = (inr (fold_left (fun t kv => PyStr.join kv.2 (PyStr.split kv.1 t))
                   (concrete vocab) text), w0)
           /\ forall k r t, k <> "" ->
                PyStr.join k (PyStr.split k t) = t
                /\ PyStr.replace k r t = PyStr.join r (PyStr.split k t)).
Proof.
  intros Hne Hin Hcodec Hdec Hopen%open_w_ok. split.
  - eexists. split; [| split].
    + eapply replace_terms_literal.
      * exact Hin.
      * exact Hcodec.
      * exact Hopen.
      * by eapply read_other.
      * constructor; [by eexists | constructor].
    + rewrite written_lookup. vm_compute. reflexivity.
    + intros p Hp. by eapply written_other.
  - intros vocab text w0 Hsome Hkeys. split.
    + rewrite literal_loop_concrete by done.
      by rewrite replace_all_join by by apply concrete_keys.
    + intros k r t Hk. destruct (replace_join_split k r t Hk). done.
Qed.

(** C9. In literal mode with an empty vocabulary the substitution leaves
    the text as it was read: the run returns 0 and the output file holds
    the encoding of exactly the text [infile.read()] gave, which is the
    decoded content of the input file (when that is another file than the
    output). *)
Theorem C9_empty_vocabulary_is_identity
    (inp out : string) (w : world) (data : list byte)
    (dec : list byte -> option string) (text : string) :
  fs w !! inp = Some (File data) ->
  codec (default preferred_encoding (detect data)) = Some dec ->
  (open_w out w).1 = inr tt ->
  (read inp dec (open_w out w).2).1 = inr text ->
  literal_loop [] text (open_w out w).2 = (inr text, (open_w out w).2)
  /\ (exists w',
         replace_terms inp [] out false w = (0%Z, w')
         /\ fs w' !! out = Some (File (encoded text)))
  /\ (inp <> out -> forall s, dec data = Some s ->
      text = TextIO.universal_newlines s).
Proof.
  intros Hin Hcodec Hopen%open_w_ok Hread. split; [done | split].
  - eexists. split.
    + eapply replace_terms_literal; [exact Hin | exact Hcodec | exact Hopen
                                       | exact Hread | by constructor].
    + by rewrite written_lookup.
  - intros Hne s Hs.
    pose proof (read_other _ _ _ _ _ _ _ Hne Hin Hopen Hs) as Hr.
    congruence.
Qed.

(** C2. In randomized mode the entries that carry the marker draw one
    name each from the random source, in order, and the single name drawn
    for a term replaces all its occurrences: after a run of marker entries
    the source has been asked exactly as many times as there are entries,
    and the text is the result of one [str.replace] per term with the name
    drawn for it. *)
Theorem C2_one_generated_value_per_term
    (pre rest : vocabulary) (text : string) (w : world) :
  Forall (fun kv => kv.2 = None) pre ->
  let names := (draw (length pre) (rand w)).1 in
  let after := set_rand (draw (length pre) (rand w)).2 w in
  length names = length pre
  /\ randomized_loop (pre ++ rest) text w
     = randomized_loop rest (replace_all (zip pre.*1 names) text) after
  /\ randomized_loop pre text w
     = (inr (inl (replace_all (zip pre.*1 names) text)), after)
  /\ forall k n t, k <> "" ->
       PyStr.join k (PyStr.split k t) = t
       /\ PyStr.replace k n t = PyStr.join n (PyStr.split k t).
Proof.
  intros Hall names after. split; [apply draw_length | split; [| split]].
  - by apply randomized_loop_markers.
  - rewrite <- (app_nil_r pre) at 1.
    by rewrite randomized_loop_markers.
  - intros k n t Hk. destruct (replace_join_split k n t Hk). done.
Qed.

End Substitution.

Section Failures.
Context `{Env}.

(** C4 (amended). In literal mode an entry that carries the marker is not
    skipped: the loop raises on it ([str.replace] rejects [None]) whatever
    the text, the run ends with result 1, and when the files could be
    opened and read it ends as a processing error with nothing written
    after the output file was opened. *)
Theorem C4_literal_mode_marker_fails
    (inp out : string) (vocab : vocabulary) (k : string) (w : world) :
  (k, None) ∈ vocab ->
  (forall text w0, literal_loop vocab text w0 = (inl TypeError, w0))
  /\ (exists w', replace_terms inp vocab out false w = (1%Z, w'))
  /\ (forall data dec text,
         fs w !! inp = Some (File data) ->
         codec (default preferred_encoding (detect data)) = Some dec ->
         (open_w out w).1 = inr tt ->
         (read inp dec (open_w out w).2).1 = inr text ->
         replace_terms inp vocab out false w
         = (1%Z, emit ERROR ("Error processing file: " +:+ exn_text TypeError)
                   (open_w out w).2)).
Proof.
  intros Hin. split; [| split].
  - intros text w0. by eapply literal_loop_fails.
  - by eapply replace_terms_mismatch.
  - intros data dec text Hf Hcodec Hopen%open_w_ok Hread.
    unfold replace_terms.
    erewrite replace_terms_try_loop by done. io_simpl.
    by erewrite literal_loop_fails.
Qed.

(** C7 (amended). When detection gives no encoding the input is opened
    with the locale's encoding, as if that had been detected, and the run
    goes on.  If the text decodes and the output can be opened, the outcome
    is decided by the vocabulary alone, in either mode: when it fits the
    mode (no marker without [--randomize], markers only with it) the
    substituted text is written and the result is 0, otherwise the result
    is 1. *)
Theorem C7_undetected_encoding_uses_locale
    (inp out : string) (vocab : vocabulary) (rnd : bool) (w : world)
    (data : list byte) (dec : list byte -> option string) (text : string) :
  fs w !! inp = Some (File data) ->
  detect data = None ->
  codec preferred_encoding = Some dec ->
  (open_w out w).1 = inr tt ->
  (read inp dec (open_w out w).2).1 = inr text ->
  open_r inp (detect data) w = (inr dec, w)
  /\ open_r inp (detect data) w = open_r inp (Some preferred_encoding) w
  /\ (fits rnd vocab ->
      (replace_terms inp vocab out rnd w).1 = 0%Z
      /\ fs (replace_terms inp vocab out rnd w).2 !! out
         = Some (File (encoded (substituted rnd vocab text (rand w)))))
  /\ (~ fits rnd vocab -> (replace_terms inp vocab out rnd w).1 = 1%Z)
  /\ (Forall (fun kv => is_Some kv.2) vocab ->
      replace_terms inp vocab out false w
      = (0%Z, written inp out (replace_all (concrete vocab) text) (open_w out w).2)
      /\ fs (written inp out (replace_all (concrete vocab) text) (open_w out w).2)
           !! out
         = Some (File (encoded (replace_all (concrete vocab) text)))).
Proof.
  intros Hin Hdet Hcodec Hopen Hread.
  assert (ready inp out w text) as Hready.
  { exists data, dec. by rewrite Hdet. }
  rewrite Hdet. split; [| split; [done | split; [| split]]].
  - unfold open_r, open_rb. io_simpl. simpl. by rewrite Hin, Hcodec.
  - intros Hfits. by apply replace_terms_success.
  - intros Hnot. apply replace_terms_zero_iff. by intros [_ Hfits].
  - intros Hall. split; [| apply written_lookup].
    apply open_w_ok in Hopen.
    eapply replace_terms_literal; [exact Hin | | exact Hopen | exact Hread | done].
    by rewrite Hdet.
Qed.

End Failures.

Section Loader.
Context `{Env}.

Lemma commas_app (a b : string) : commas (a +:+ b) = commas a + commas b.
Proof.
  induction a as [|c a IH]; [done |].
  rewrite append_cons. cbn [commas]. rewrite IH. lia.
Qed.

(** C5 (amended). A non-blank line is trimmed and split on every comma,
    which gives one part more than it has commas.  Without a comma the
    trimmed line is stored with the marker; with one comma the trimmed
    text before it is stored with the trimmed text after it; with two or
    more commas nothing is stored, a warning is issued and the loop goes
    on with the remaining lines. *)
Theorem C5_line_is_split_on_every_comma
    (line : string) (rest : list string) (vocab : vocabulary) (w : world) :
  PyStr.strip line <> "" ->
  let l := PyStr.strip line in
  length (PyStr.split "," l) = S (commas l)
  /\ (commas l = 0 ->
      load_lines (line :: rest) vocab w
      = load_lines rest (dict_set l None vocab) w)
  /\ (commas l = 1 ->
      exists a b,
        l = a +:+ "," +:+ b /\ commas a = 0 /\ commas b = 0
        /\ load_lines (line :: rest) vocab w
           = load_lines rest
               (dict_set (PyStr.strip a) (Some (PyStr.strip b)) vocab) w)
  /\ (2 <= commas l ->
      load_lines (line :: rest) vocab w
      = load_lines rest vocab
          (emit WARNING
             ("Invalid line in vocabulary file: " +:+ l +:+ ". Skipping.") w)).
Proof.
  intros Hl l. split; [apply split_comma_length |].
  rewrite load_lines_parts by done. fold l. split; [| split].
  - intros Hc. rewrite (split_comma_none l Hc).
    unfold l. by rewrite strip_strip.
  - intros Hc. destruct (split_comma_one l Hc) as (a & b & -> & Hab).
    exists a, b. split; [done |].
    assert (commas a + S (commas b) = 1) as Hsum.
    { rewrite <- Hc, Hab, !commas_app. done. }
    split; [lia | split; [lia | done]].
  - intros Hc. by destruct (split_comma_many l Hc) as (a & b & c & ps & ->).
Qed.

(** What [load_vocabulary] answers, by what the file is. *)
Lemma load_vocabulary_cases (p : string) (w : world) :
  (exists data dec s vocab w',
      fs w !! p = Some (File data) /\ codec "utf-8" = Some dec
      /\ dec data = Some s
      /\ load_lines (TextIO.readlines (TextIO.universal_newlines s)) [] w
         = (inr vocab, w')
      /\ fs w' = fs w /\ rand w' = rand w /\ threshold w' = threshold w
      /\ load_vocabulary p w = (Some vocab, w'))
  \/ (~ (exists data dec s,
            fs w !! p = Some (File data) /\ codec "utf-8" = Some dec
            /\ dec data = Some s)
      /\ exists e msg,
           load_vocabulary_try p w = (inl e, w)
           /\ load_vocabulary p w = (None, emit ERROR msg w)).
Proof.
  unfold load_vocabulary, load_vocabulary_try, open_r, open_rb, read.
  io_simpl. simpl.
  destruct (fs w !! p) as [[data| |]|] eqn:Hp.
  2-4: right; split; [by intros (? & ? & ? & ? & _) | by eexists _, _].
  destruct (codec "utf-8") as [dec|] eqn:Hc.
  2: right; split; [by intros (? & ? & ? & ? & ? & _) | by eexists _, _].
  rewrite Hp. destruct (dec data) as [s|] eqn:Hs.
  - left.
    destruct (load_lines_total (TextIO.readlines (TextIO.universal_newlines s))
                [] w) as (vocab & w' & Hl & Hfs & Hr & Ht).
    rewrite Hl. by exists data, dec, s, vocab, w'.
  - right. split; [| by eexists _, _].
    intros (d' & dec' & s' & ? & ? & ?). congruence.
Qed.

(** C6 (amended). Every key of a loaded vocabulary is the trimmed first
    part of a non-blank line of the file, and it is the empty string
    exactly when that trimmed line starts with a comma. *)
Theorem C6_keys_are_empty_only_for_leading_comma
    (p : string) (w w' : world) (vocab : vocabulary) :
  load_vocabulary p w = (Some vocab, w') ->
  exists data dec s,
    fs w !! p = Some (File data) /\ codec "utf-8" = Some dec
    /\ dec data = Some s
    /\ forall k, k ∈ dict_keys vocab ->
         exists line,
           line ∈ TextIO.readlines (TextIO.universal_newlines s)
           /\ PyStr.strip line <> ""
           /\ k = key_of_line line
           /\ (k = "" <-> String.prefix "," (PyStr.strip line) = true).
Proof.
  intros Hload.
  destruct (load_vocabulary_cases p w)
    as [(data & dec & s & v & w1 & Hp & Hc & Hs & Hl & _ & _ & _ & Hv)
       |(_ & e & msg & _ & Hv)]; [| congruence].
  rewrite Hv in Hload. injection Hload as -> ->.
  exists data, dec, s. split; [done | split; [done | split; [done |]]].
  intros k Hk.
  destruct (load_lines_keys _ _ _ _ _ k Hl Hk) as [Hnil|(line & Hin & Hne & ->)].
  - by apply elem_of_nil in Hnil.
  - exists line. split; [done | split; [done | split; [done |]]].
    by apply key_of_line_empty.
Qed.

(** C10. [load_vocabulary] answers for every path and every state of the
    file system: either the whole mapping built from all the lines of the
    file, or [None].  Every exception raised in its [try] block is caught
    and ends in [None], never in a mapping, and the files are left as they
    were; that happens exactly when the file cannot be opened and decoded. *)
Theorem C10_load_vocabulary_total (p : string) (w : world) :
  (exists data dec s vocab w',
      fs w !! p = Some (File data) /\ codec "utf-8" = Some dec
      /\ dec data = Some s
      /\ load_lines (TextIO.readlines (TextIO.universal_newlines s)) [] w
         = (inr vocab, w')
      /\ fs w' = fs w
      /\ load_vocabulary p w = (Some vocab, w'))
  \/ (~ (exists data dec s,
            fs w !! p = Some (File data) /\ codec "utf-8" = Some dec
            /\ dec data = Some s)
      /\ (exists e w', load_vocabulary_try p w = (inl e, w'))
      /\ (load_vocabulary p w).1 = None
      /\ fs (load_vocabulary p w).2 = fs w).
Proof.
  destruct (load_vocabulary_cases p w)
    as [(data & dec & s & v & w1 & Hp & Hc & Hs & Hl & Hfs & _ & _ & Hv)
       |(Hno & e & msg & Htry & Hv)].
  - left. by exists data, dec, s, v, w1.
  - right. split; [done | split; [by eauto |]].
    rewrite Hv. split; [done | apply emit_fs].
Qed.

End Loader.

Section ExitCodes.
Context `{Env}.

Lemma emit_error_log (msg : string) (w : world) :
  threshold w <> CRITICAL -> log (emit ERROR msg w) = log w ++ [(ERROR, msg)].
Proof. unfold emit. by destruct (threshold w). Qed.

Lemma main_missing_input (a : args) (w : world) :
  fs w !! input_file a = None ->
  main a w
  = (1%Z, emit ERROR ("Input file does not exist: " +:+ input_file a)
            (setLevel (log_level a) w)).
Proof.
  intros Hi. unfold main, path_exists. cbn [fs setLevel].
  rewrite Hi, bool_decide_eq_false_2; [done |]. by intros [? ?].
Qed.

Lemma main_missing_vocabulary (a : args) (w : world) :
  is_Some (fs w !! input_file a) ->
  fs w !! vocabulary_file a = None ->
  main a w
  = (1%Z, emit ERROR ("Vocabulary file does not exist: " +:+ vocabulary_file a)
            (setLevel (log_level a) w)).
Proof.
  intros Hi Hv. unfold main, path_exists. cbn [fs setLevel].
  rewrite (bool_decide_eq_true_2 _ Hi), Hv. cbn [negb].
  rewrite bool_decide_eq_false_2; [done |]. by intros [? ?].
Qed.

Lemma main_both_exist (a : args) (w : world) :
  is_Some (fs w !! input_file a) ->
  is_Some (fs w !! vocabulary_file a) ->
  main a w
  = match load_vocabulary (vocabulary_file a) (setLevel (log_level a) w) with
    | (None, w1) => (1%Z, w1)
    | (Some vocab, w1) =>
        replace_terms (input_file a) vocab (output_file a) (randomize a) w1
    end.
Proof.
  intros Hi Hv. unfold main, path_exists. cbn [fs setLevel].
  by rewrite (bool_decide_eq_true_2 _ Hi), (bool_decide_eq_true_2 _ Hv).
Qed.

(** C8 (amended). [main] ends with status 0 or 1.  A missing input file
    gives 1 and an ERROR record "Input file does not exist: <path>", which
    reaches the log unless [--log_level CRITICAL] was given.  A missing
    vocabulary file, a vocabulary that fails to load, a failing
    [replace_terms] and a vocabulary that does not fit the mode give 1.
    The status is 0 exactly on success: both files exist, the vocabulary
    loads, the input can be opened and decoded, its encoding names a
    codec, the output can be opened for writing and the vocabulary fits
    the mode; the output file then holds the substituted text.  When the
    vocabulary has loaded and one of the steps before the substitution
    fails (the input cannot be opened or decoded, the codec is unknown, the
    output cannot be opened), the status is 1. *)
Theorem C8_exit_status (a : args) (w : world) :
  let w0 := setLevel (log_level a) w in
  let r := main a w in
  (r.1 = 0%Z \/ r.1 = 1%Z)
  /\ (fs w !! input_file a = None ->
      r = (1%Z, emit ERROR ("Input file does not exist: " +:+ input_file a) w0)
      /\ (log_level a <> CRITICAL ->
          log r.2
          = log w ++ [(ERROR, "Input file does not exist: " +:+ input_file a)]))
  /\ (fs w !! vocabulary_file a = None -> r.1 = 1%Z)
  /\ (is_Some (fs w !! input_file a) ->
      is_Some (fs w !! vocabulary_file a) ->
      ((load_vocabulary (vocabulary_file a) w0).1 = None -> r.1 = 1%Z)
      /\ forall vocab w1,
           load_vocabulary (vocabulary_file a) w0 = (Some vocab, w1) ->
           r = replace_terms (input_file a) vocab (output_file a) (randomize a) w1
           /\ forall k v,
                (k, v) ∈ vocab ->
                (if randomize a then is_Some v else v = None) ->
                r.1 = 1%Z)
  /\ (r.1 = 0%Z <->
      exists vocab w1 t w2,
        is_Some (fs w !! input_file a)
        /\ is_Some (fs w !! vocabulary_file a)
        /\ load_vocabulary (vocabulary_file a) w0 = (Some vocab, w1)
        /\ r = (0%Z, written (input_file a) (output_file a) t w2))
  /\ (r.1 = 0%Z ->
      exists t, fs r.2 !! output_file a = Some (File (encoded t)))
  /\ (r.1 = 0%Z <->
      exists vocab w1 text,
        is_Some (fs w !! input_file a)
        /\ is_Some (fs w !! vocabulary_file a)
        /\ load_vocabulary (vocabulary_file a) w0 = (Some vocab, w1)
        /\ ready (input_file a) (output_file a) w1 text
        /\ fits (randomize a) vocab)
  /\ (forall vocab w1 text,
        is_Some (fs w !! input_file a) ->
        is_Some (fs w !! vocabulary_file a) ->
        load_vocabulary (vocabulary_file a) w0 = (Some vocab, w1) ->
        ready (input_file a) (output_file a) w1 text ->
        fits (randomize a) vocab ->
        r.1 = 0%Z
        /\ fs r.2 !! output_file a
           = Some (File (encoded (substituted (randomize a) vocab text (rand w)))))
  /\ (forall vocab w1,
        is_Some (fs w !! input_file a) ->
        is_Some (fs w !! vocabulary_file a) ->
        load_vocabulary (vocabulary_file a) w0 = (Some vocab, w1) ->
        ~ (exists text, ready (input_file a) (output_file a) w1 text) ->
        r.1 = 1%Z).
Proof.
  intros w0 r.
  assert (Hboth : is_Some (fs w !! input_file a) ->
                  is_Some (fs w !! vocabulary_file a) ->
                  forall vocab w1,
                    load_vocabulary (vocabulary_file a) w0 = (Some vocab, w1) ->
                    r = replace_terms (input_file a) vocab (output_file a)
                          (randomize a) w1).
  { intros Hi Hv vocab w1 Hl. unfold r. rewrite main_both_exist by done.
    fold w0. by rewrite Hl. }
  assert (Hcases :
            (exists w', r = (1%Z, w'))
            \/ exists vocab w1 t w2,
                 is_Some (fs w !! input_file a)
                 /\ is_Some (fs w !! vocabulary_file a)
                 /\ load_vocabulary (vocabulary_file a) w0 = (Some vocab, w1)
                 /\ r = (0%Z, written (input_file a) (output_file a) t w2)).
  { destruct (fs w !! input_file a) as [ni|] eqn:Hi.
    2: { left. eexists. by apply main_missing_input. }
    destruct (fs w !! vocabulary_file a) as [nv|] eqn:Hv.
    2: { left. eexists. apply main_missing_vocabulary; [by rewrite Hi | done]. }
    destruct (load_vocabulary (vocabulary_file a) w0) as [[vocab|] w1] eqn:Hl.
    - destruct (replace_terms_code (input_file a) (output_file a) vocab
                  (randomize a) w1) as [(w' & Hr)|(t & w2 & Hr & _)].
      + left. exists w'. rewrite <- Hr. apply Hboth; by rewrite ?Hi, ?Hv.
      + right. exists vocab, w1, t, w2. split; [done | split; [done |]].
        split; [done |]. rewrite <- Hr. apply Hboth; by rewrite ?Hi, ?Hv.
    - left. exists w1. unfold r. rewrite main_both_exist by by rewrite ?Hi, ?Hv.
      fold w0. by rewrite Hl. }
  assert (Hsuccess :
            forall vocab w1 text,
              is_Some (fs w !! input_file a) ->
              is_Some (fs w !! vocabulary_file a) ->
              load_vocabulary (vocabulary_file a) w0 = (Some vocab, w1) ->
              ready (input_file a) (output_file a) w1 text ->
              fits (randomize a) vocab ->
              r.1 = 0%Z
              /\ fs r.2 !! output_file a
                 = Some (File (encoded (substituted (randomize a) vocab text
                                          (rand w))))).
  { intros vocab w1 text Hi Hv Hl Hready Hfits.
    rewrite (Hboth Hi Hv vocab w1 Hl).
    assert (rand w1 = rand w) as <-.
    { destruct (load_vocabulary_cases (vocabulary_file a) w0)
        as [(d0 & dec0 & s0 & v' & w1' & _ & _ & _ & _ & _ & Hrand & _ & Hv')
           |(_ & e0 & msg0 & _ & Hv')]; rewrite Hv' in Hl; [| done].
      injection Hl as _ <-. exact Hrand. }
    by apply replace_terms_success. }
  split; [| split; [| split; [| split; [| split; [| split; [| split; [| split]]]]]]].
  - destruct Hcases as [(w' & ->)|(? & ? & ? & ? & _ & _ & _ & ->)]; auto.
  - intros Hi. split; [by apply main_missing_input |].
    intros Hlvl. unfold r. rewrite main_missing_input by done.
    cbn [snd]. by rewrite emit_error_log.
  - intros Hv. destruct (fs w !! input_file a) as [ni|] eqn:Hi.
    + unfold r. by rewrite main_missing_vocabulary by by rewrite ?Hi.
    + unfold r. by rewrite main_missing_input.
  - intros Hi Hv. split.
    + intros Hnone. unfold r. rewrite main_both_exist by done. fold w0.
      destruct (load_vocabulary (vocabulary_file a) w0) as [[vocab|] w1];
        [done | done].
    + intros vocab w1 Hl. split; [by apply Hboth |].
      intros k v Hin Hmode. rewrite (Hboth Hi Hv vocab w1 Hl).
      by destruct (replace_terms_mismatch (input_file a) (output_file a) vocab
                     (randomize a) w1 k v Hin Hmode) as [w' ->].
  - split.
    + intros Hz. destruct Hcases as [(w' & Hr)|Hok]; [| done].
      rewrite Hr in Hz. done.
    + by intros (? & ? & ? & ? & _ & _ & _ & ->).
  - intros Hz. destruct Hcases as [(w' & Hr)|(? & ? & t & w2 & _ & _ & _ & Hr)].
    + rewrite Hr in Hz. done.
    + exists t. rewrite Hr. apply written_lookup.
  - split.
    + intros Hz.
      destruct Hcases as [(w' & Hr)|(vocab & w1 & _ & _ & Hi & Hv & Hl & _)].
      { rewrite Hr in Hz. done. }
      rewrite (Hboth Hi Hv vocab w1 Hl) in Hz.
      apply replace_terms_zero in Hz as [[text Hready] Hfits].
      by exists vocab, w1, text.
    + intros (vocab & w1 & text & Hi & Hv & Hl & Hready & Hfits).
      by destruct (Hsuccess vocab w1 text Hi Hv Hl Hready Hfits).
  - exact Hsuccess.
  - intros vocab w1 Hi Hv Hl Hnot. rewrite (Hboth Hi Hv vocab w1 Hl).
    apply replace_terms_zero_iff. by intros [Hready _].
Qed.

End ExitCodes.

(** ** The properties on concrete runs *)

Section Runs.
Import Sample.

Example strip_runs :
  PyStr.strip ("  a b " +:+ String TextIO.LF "") = "a b".
Proof. reflexivity. Qed.

Example split_runs :
  PyStr.split "," "a,b,,c" = ["a"; "b"; ""; "c"]
  /\ PyStr.split "," "" = [""] /\ PyStr.split "," "," = [""; ""].
Proof. by repeat split. Qed.

Example replace_runs :
  PyStr.replace "aa" "b" "aaaaa" = "bba"
  /\ PyStr.replace "" "-" "abc" = "-a-b-c-".
Proof. by split. Qed.

Example load_runs :
  (@load_vocabulary env "v.csv"
     (world_of [("v.csv", text_file ["a , b"; ""; "zz"; "a,c"])])).1
  = Some [("a", Some "c"); ("zz", None)].
Proof. vm_compute. reflexivity. Qed.

(** C3. With [--randomize] and a vocabulary file that has a line with a
    replacement the run ends with status 1, yet the output file has been
    opened for writing before the vocabulary is looked at: an existing
    output file is emptied and a missing one is created. *)
Theorem C3_randomize_with_literal_entry_empties_output :
  let a := @Args "in.txt" "v.csv" "out.txt" true INFO in
  let w := world_of [("in.txt", File (bytes "a b a"));
                     ("v.csv", text_file ["a,b"]);
                     ("out.txt", File (bytes "old"))] in
  let w' := world_of [("in.txt", File (bytes "a b a"));
                      ("v.csv", text_file ["a,b"])] in
  (@load_vocabulary env "v.csv" w).1 = Some [("a", Some "b")]
  /\ (@main env a w).1 = 1%Z
  /\ fs w !! "out.txt" = Some (File (bytes "old"))
  /\ fs (@main env a w).2 !! "out.txt" = Some (File [])
  /\ (@main env a w').1 = 1%Z
  /\ fs w' !! "out.txt" = None
  /\ fs (@main env a w').2 !! "out.txt" = Some (File []).
Proof. vm_compute. by repeat split. Qed.

Lemma C1_witness :
  let w := world_of
             [("in.txt", File (bytes "Hello, John Smith. John Smith said hi."))] in
  "in.txt" <> "out.txt"
  /\ fs w !! "in.txt"
     = Some (File (bytes "Hello, John Smith. John Smith said hi."))
  /\ (@open_w env "out.txt" w).1 = inr tt
  /\ exists w1,
       @replace_terms env "in.txt" [("John Smith", Some "REDACTED")]
         "out.txt" false w = (0%Z, w1)
       /\ fs w1 !! "out.txt"
          = Some (File (bytes "Hello, REDACTED. REDACTED said hi.")).
Proof.
  intros w.
  assert (h1 : "in.txt" <> "out.txt") by discriminate.
  assert (h2 : fs w !! "in.txt"
               = Some (File (bytes "Hello, John Smith. John Smith said hi.")))
    by (vm_compute; reflexivity).
  assert (h3 : (@open_w env "out.txt" w).1 = inr tt)
    by (vm_compute; reflexivity).
  split; [exact h1 | split; [exact h2 | split; [exact h3 |]]].
  destruct (@C1_literal_mode_replaces_every_occurrence env "in.txt" "out.txt" w
              (bytes "Hello, John Smith. John Smith said hi.") decode_ascii
              h1 h2 eq_refl eq_refl h3) as [(w1 & Hr & Hout & _) _].
  exists w1. split; [exact Hr | exact Hout].
Defined.

Lemma C9_witness :
  let w := world_of [("in.txt", File (bytes "Hello"))] in
  fs w !! "in.txt" = Some (File (bytes "Hello"))
  /\ (@open_w env "out.txt" w).1 = inr tt
  /\ exists w1,
       @replace_terms env "in.txt" [] "out.txt" false w = (0%Z, w1)
       /\ fs w1 !! "out.txt" = Some (File (bytes "Hello")).
Proof.
  intros w.
  assert (h1 : fs w !! "in.txt" = Some (File (bytes "Hello")))
    by (vm_compute; reflexivity).
  assert (h2 : (@open_w env "out.txt" w).1 = inr tt)
    by (vm_compute; reflexivity).
  split; [exact h1 | split; [exact h2 |]].
  destruct (@C9_empty_vocabulary_is_identity env "in.txt" "out.txt" w
              (bytes "Hello") decode_ascii "Hello" h1 eq_refl h2 eq_refl)
    as (_ & (w1 & Hr & Hout) & _).
  exists w1. split; [exact Hr | exact Hout].
Defined.

Lemma C2_witness :
  let pre := [("Ann", None); ("Bo", None)] in
  let w := world_of [] in
  Forall (fun kv : string * option string => kv.2 = None) pre
  /\ @randomized_loop env pre "Ann met Bo; Ann left" w
     = (inr (inl "Alice Doe met Bob Roe; Alice Doe left"), @set_rand env 2 w).
Proof.
  intros pre w.
  assert (h : Forall (fun kv : string * option string => kv.2 = None) pre)
    by (repeat constructor).
  split; [exact h |].
  exact (proj1 (proj2 (proj2
           (@C2_one_generated_value_per_term env pre [] "Ann met Bo; Ann left"
              w h)))).
Defined.

End Runs.

Section Divergences.
Import Sample.

(** C4, as stated, fails: a bare term in the vocabulary file, used
    without [--randomize], ends the run with status 1 and the text with
    the other entry applied is not in the output file. *)
Lemma C4_counterexample :
  let w := world_of [("in.txt", File (bytes "a zz"));
                     ("v.csv", text_file ["a,x"; "zz"])] in
  let r := @main env (Args "in.txt" "v.csv" "out.txt" false INFO) w in
  (@load_vocabulary env "v.csv" w).1 = Some [("a", Some "x"); ("zz", None)]
  /\ r.1 = 1%Z
  /\ fs r.2 !! "out.txt" <> Some (File (bytes "x zz")).
Proof. vm_compute. by repeat split. Qed.

Lemma C4_witness :
  let vocab := [("a", Some "x"); ("zz", None)] in
  let w := world_of [("in.txt", File (bytes "a zz"))] in
  ("zz", None) ∈ vocab
  /\ exists w1, @replace_terms env "in.txt" vocab "out.txt" false w = (1%Z, w1).
Proof.
  intros vocab w.
  assert (h : ("zz", None) ∈ vocab) by (right; left).
  split; [exact h |].
  exact (proj1 (proj2
           (@C4_literal_mode_marker_fails env "in.txt" "out.txt" vocab "zz" w h))).
Defined.

(** C5, as stated, fails: read on the first comma only, the line a,b,c
    would give the term a with the replacement b,c; the loader stores
    nothing for it. *)
Lemma C5_counterexample :
  spec_entry_first_comma "a,b,c" = ("a", Some "b,c")
  /\ (@load_vocabulary env "v.csv"
        (world_of [("v.csv", text_file ["a,b,c"; "d,e"])])).1
     = Some [("d", Some "e")]
  /\ ~ (forall line : string,
           PyStr.strip line <> "" ->
           (@load_lines env [line] [] (world_of [])).1
           = inr [spec_entry_first_comma line]).
Proof.
  split; [done | split; [vm_compute; reflexivity |]].
  intros Hall. specialize (Hall "a,b,c"). vm_compute in Hall.
  assert ("a,b,c" <> "") as Hne by discriminate.
  specialize (Hall Hne). discriminate.
Qed.

Lemma C5_witness :
  let w := world_of [] in
  PyStr.strip " a,b,c " <> ""
  /\ @load_lines env [" a,b,c "; "d,e"] [] w
     = @load_lines env ["d,e"] []
         (@emit env WARNING "Invalid line in vocabulary file: a,b,c. Skipping." w).
Proof.
  intros w.
  assert (h : PyStr.strip " a,b,c " <> "") by (vm_compute; discriminate).
  split; [exact h |].
  refine (proj2 (proj2 (proj2
            (@C5_line_is_split_on_every_comma env " a,b,c " ["d,e"] [] w h))) _).
  vm_compute. lia.
Defined.

(** C6, as stated, fails: a line that starts with a comma is stored
    under the empty string. *)
Lemma C6_counterexample :
  (@load_vocabulary env "v.csv" (world_of [("v.csv", text_file [",x"])])).1
  = Some [("", Some "x")]
  /\ ~ (forall (p : string) (w w' : @world env) (vocab : vocabulary),
           @load_vocabulary env p w = (Some vocab, w') ->
           forall k, k ∈ dict_keys vocab -> k <> "").
Proof.
  split; [vm_compute; reflexivity |].
  intros Hall.
  refine (Hall "v.csv" (world_of [("v.csv", text_file [",x"])]) _
            [("", Some "x")] _ "" _ eq_refl).
  - vm_compute. reflexivity.
  - by left.
Qed.

Lemma C6_witness :
  let w := world_of [("v.csv", text_file ["a,b"; ",x"; "q"])] in
  @load_vocabulary env "v.csv" w
  = (Some [("a", Some "b"); ("", Some "x"); ("q", None)], w)
  /\ exists line,
       PyStr.strip line <> "" /\ "" = key_of_line line
       /\ String.prefix "," (PyStr.strip line) = true.
Proof.
  intros w.
  assert (h : @load_vocabulary env "v.csv" w
              = (Some [("a", Some "b"); ("", Some "x"); ("q", None)], w))
    by (vm_compute; reflexivity).
  split; [exact h |].
  destruct (@C6_keys_are_empty_only_for_leading_comma env "v.csv" w w _ h)
    as (data & dec & s & _ & _ & _ & Hkeys).
  destruct (Hkeys "") as (line & _ & Hne & Hk & Hiff).
  { right; left. }
  exists line. split; [exact Hne | split; [exact Hk |]].
  apply Hiff. reflexivity.
Defined.

(** C7, as stated, fails: for an empty input file the detector gives no
    encoding and the run succeeds; with a detector that never answers, a
    file is decoded with the locale's encoding, substituted and written. *)
Lemma C7_counterexample :
  let w := world_of [("in.txt", File [])] in
  let w' := @World blind (list_to_map [("in.txt", File (bytes "Hello Ann"))])
              INFO [] 0 in
  let r := @replace_terms blind "in.txt" [("Ann", Some "X")] "out.txt" false w' in
  @detect env [] = None
  /\ (@replace_terms env "in.txt" [] "out.txt" false w).1 = 0%Z
  /\ @detect blind (bytes "Hello Ann") = None
  /\ r.1 = 0%Z
  /\ fs r.2 !! "out.txt" = Some (File (bytes "Hello X")).
Proof. vm_compute. by repeat split. Qed.

Lemma C7_witness :
  let w := @World blind (list_to_map [("in.txt", File (bytes "Hello Ann"))])
             INFO [] 0 in
  fs w !! "in.txt" = Some (File (bytes "Hello Ann"))
  /\ @detect blind (bytes "Hello Ann") = None
  /\ (@open_w blind "out.txt" w).1 = inr tt
  /\ (@replace_terms blind "in.txt" [("Ann", Some "X")] "out.txt" false w).1
     = 0%Z
  /\ (@replace_terms blind "in.txt" [("Ann", None)] "out.txt" true w).1 = 0%Z
  /\ fs (@replace_terms blind "in.txt" [("Ann", None)] "out.txt" true w).2
       !! "out.txt"
     = Some (File (bytes "Hello Alice Doe"))
  /\ (@replace_terms blind "in.txt" [("Ann", None)] "out.txt" false w).1 = 1%Z.
Proof.
  intros w.
  assert (h1 : fs w !! "in.txt" = Some (File (bytes "Hello Ann")))
    by (vm_compute; reflexivity).
  assert (h2 : (@open_w blind "out.txt" w).1 = inr tt)
    by (vm_compute; reflexivity).
  assert (h3 : fits false [("Ann", Some "X")])
    by (constructor; [by eexists | constructor]).
  assert (h4 : fits true [("Ann", None)])
    by (constructor; [reflexivity | constructor]).
  assert (h5 : ~ fits false [("Ann", None)]).
  { intros Hf. apply Forall_cons in Hf as [[r Hr] _]. discriminate Hr. }
  split; [exact h1 | split; [reflexivity | split; [exact h2 |]]].
  split; [| split; [| split]].
  - exact (proj1 (proj1 (proj2 (proj2
             (@C7_undetected_encoding_uses_locale blind "in.txt" "out.txt"
                [("Ann", Some "X")] false w (bytes "Hello Ann") decode_utf8
                "Hello Ann" h1 eq_refl eq_refl h2 eq_refl))) h3)).
  - exact (proj1 (proj1 (proj2 (proj2
             (@C7_undetected_encoding_uses_locale blind "in.txt" "out.txt"
                [("Ann", None)] true w (bytes "Hello Ann") decode_utf8
                "Hello Ann" h1 eq_refl eq_refl h2 eq_refl))) h4)).
  - exact (proj2 (proj1 (proj2 (proj2
             (@C7_undetected_encoding_uses_locale blind "in.txt" "out.txt"
                [("Ann", None)] true w (bytes "Hello Ann") decode_utf8
                "Hello Ann" h1 eq_refl eq_refl h2 eq_refl))) h4)).
  - exact (proj1 (proj2 (proj2 (proj2
             (@C7_undetected_encoding_uses_locale blind "in.txt" "out.txt"
                [("Ann", None)] false w (bytes "Hello Ann") decode_utf8
                "Hello Ann" h1 eq_refl eq_refl h2 eq_refl)))) h5).
Defined.

(** C8, as stated, fails: under [--log_level CRITICAL] a missing input
    file ends the run with status 1 and nothing is logged. *)
Lemma C8_counterexample :
  let w := world_of [] in
  let r := @main env (Args "in.txt" "v.csv" "out.txt" false CRITICAL) w in
  fs w !! "in.txt" = None /\ r.1 = 1%Z /\ log r.2 = [].
Proof. vm_compute. by repeat split. Qed.

Lemma C8_witness :
  let w := world_of [] in
  let a := @Args "in.txt" "v.csv" "out.txt" false INFO in
  let w2 := world_of [("in.txt", File (bytes "Hello Ann"));
                      ("v.csv", text_file ["Ann,X"])] in
  fs w !! "in.txt" = None
  /\ (@main env a w).1 = 1%Z
  /\ log (@main env a w).2
     = [(ERROR, "Input file does not exist: in.txt")]
  /\ @load_vocabulary env "v.csv" (@setLevel env INFO w2)
     = (Some [("Ann", Some "X")], w2)
  /\ @ready env "in.txt" "out.txt" w2 "Hello Ann"
  /\ (@main env a w2).1 = 0%Z
  /\ fs (@main env a w2).2 !! "out.txt" = Some (File (bytes "Hello X")).
Proof.
  intros w a w2.
  assert (h : fs w !! input_file a = None) by (vm_compute; reflexivity).
  assert (h1 : is_Some (fs w2 !! input_file a)) by (eexists; reflexivity).
  assert (h2 : is_Some (fs w2 !! vocabulary_file a)) by (eexists; reflexivity).
  assert (h3 : @load_vocabulary env (vocabulary_file a)
                 (@setLevel env (log_level a) w2)
               = (Some [("Ann", Some "X")], w2))
    by (vm_compute; reflexivity).
  assert (h4 : @ready env (input_file a) (output_file a) w2 "Hello Ann").
  { exists (bytes "Hello Ann"), decode_ascii.
    split; [vm_compute; reflexivity | split; [reflexivity |]].
    split; vm_compute; reflexivity. }
  assert (h5 : fits (randomize a) [("Ann", Some "X")])
    by (constructor; [by eexists | constructor]).
  split; [exact h |].
  destruct (proj1 (proj2 (@C8_exit_status env a w)) h) as [Hr Hlog].
  split; [rewrite Hr; reflexivity |].
  split; [apply Hlog; discriminate |].
  split; [exact h3 | split; [exact h4 |]].
  destruct (@C8_exit_status env a w2) as (_ & _ & _ & _ & _ & _ & _ & Hs & _).
  exact (Hs _ _ _ h1 h2 h3 h4 h5).
Defined.

Lemma C10_witness :
  let w := world_of [("v.csv", Dir)] in
  (@load_vocabulary env "v.csv" w).1 = None
  /\ (@load_vocabulary env "missing.csv" w).1 = None.
Proof.
  intros w. split.
  - destruct (@C10_load_vocabulary_total env "v.csv" w)
      as [(d & dec & s & v & w' & Hp & _)|(_ & _ & Hnone & _)];
      [discriminate Hp | exact Hnone].
  - destruct (@C10_load_vocabulary_total env "missing.csv" w)
      as [(d & dec & s & v & w' & Hp & _)|(_ & _ & Hnone & _)];
      [discriminate Hp | exact Hnone].
Defined.

End Divergences.

(** ** Further properties of the loader, of a run and of [main] *)

Section LoaderMore.
Context `{Env}.

Lemma dict_get_set_eq (k : string) (v : option string) (d : vocabulary) :
  dict_get k (dict_set k v d) = Some v.
Proof.
  induction d as [|[k0 v0] d IH]; cbn.
  - by rewrite String.eqb_refl.
  - destruct (String.eqb_spec k0 k) as [->|Hne]; cbn.
    + by rewrite String.eqb_refl.
    + by apply String.eqb_neq in Hne as ->.
Qed.

Lemma dict_get_set_ne (k k' : string) (v : option string) (d : vocabulary) :
  k' <> k -> dict_get k (dict_set k' v d) = dict_get k d.
Proof.
  intros Hne. induction d as [|[k0 v0] d IH]; cbn.
  - by apply String.eqb_neq in Hne as ->.
  - destruct (String.eqb_spec k0 k') as [->|Hne']; cbn.
    + by apply String.eqb_neq in Hne as ->.
    + by rewrite IH.
Qed.

Lemma dict_set_elem (k : string) (v : option string) (d : vocabulary)
    (kv : string * option string) :
  kv ∈ dict_set k v d -> kv = (k, v) \/ kv ∈ d.
Proof.
  induction d as [|[k0 v0] d IH]; cbn.
  - intros ->%list_elem_of_singleton. by left.
  - destruct (String.eqb_spec k0 k) as [->|Hne].
    + intros [->|Hin]%elem_of_cons; [by left | right; by right].
    + intros [->|Hin]%elem_of_cons; [right; by left |].
      destruct (IH Hin) as [->|?]; [by left | right; by right].
Qed.

(** One line of the loop, by what the line stores and whether it is
    warned about. *)
Lemma load_lines_cons (line : string) (rest : list string)
    (vocab : vocabulary) (w : world) :
  load_lines (line :: rest) vocab w
  = load_lines rest
      (match entry_of_line line with
       | Some (k, v) => dict_set k v vocab
       | None => vocab
       end)
      (if malformed line then emit WARNING (warning_text line) w else w).
Proof.
  unfold entry_of_line, malformed, warning_text.
  destruct (decide (PyStr.strip line = "")) as [Hl|Hl].
  - rewrite load_lines_blank by done. by rewrite Hl.
  - rewrite load_lines_parts by done.
    apply is_empty_false in Hl as Hl'. rewrite Hl'. cbn [negb andb].
    pose proof (split_comma_length (PyStr.strip line)) as Hlen.
    destruct (PyStr.split "," (PyStr.strip line)) as [|p0 [|p1 [|p2 ps]]];
      cbn in Hlen.
    + done.
    + by replace (commas (PyStr.strip line)) with 0 by lia.
    + by replace (commas (PyStr.strip line)) with 1 by lia.
    + destruct (commas (PyStr.strip line)) as [|[|n]]; [lia | lia | done].
Qed.

Lemma entry_of_line_key (line k : string) (v : option string) :
  entry_of_line line = Some (k, v) ->
  PyStr.strip line <> "" /\ commas (PyStr.strip line) <= 1 /\ k = key_of_line line.
Proof.
  unfold entry_of_line, key_of_line.
  destruct (PyStr.is_empty (PyStr.strip line)) eqn:He; [done |].
  apply is_empty_false in He.
  pose proof (split_comma_length (PyStr.strip line)) as Hlen.
  destruct (PyStr.split "," (PyStr.strip line)) as [|p0 [|p1 [|p2 ps]]];
    cbn in Hlen; intros; simplify_eq/=; (split; [done | split; [lia | done]]).
Qed.

(** Loading a list of lines is loading its first part and then the rest
    on top of the result. *)
Lemma load_lines_app (l1 l2 : list string) (vocab : vocabulary) (w : world) :
  load_lines (l1 ++ l2) vocab w
  = match load_lines l1 vocab w with
    | (inr v1, w1) => load_lines l2 v1 w1
    | (inl e, w1) => (inl e, w1)
    end.
Proof.
  revert vocab w. induction l1 as [|line l1 IH]; intros vocab w; [done |].
  rewrite <- app_comm_cons, !load_lines_cons. apply IH.
Qed.

Lemma load_lines_get_other (lines : list string) (vocab vocab' : vocabulary)
    (w w' : world) (k : string) :
  (forall l, l ∈ lines ->
     PyStr.strip l = "" \/ 2 <= commas (PyStr.strip l) \/ key_of_line l <> k) ->
  load_lines lines vocab w = (inr vocab', w') ->
  dict_get k vocab' = dict_get k vocab.
Proof.
  revert vocab w. induction lines as [|line rest IH]; intros vocab w Hk Hload.
  - by injection Hload as <- <-.
  - rewrite load_lines_cons in Hload.
    rewrite (IH _ _ (fun l Hl => Hk l (list_elem_of_further _ _ _ Hl)) Hload).
    destruct (entry_of_line line) as [[k0 v0]|] eqn:He; [| done].
    apply entry_of_line_key in He as (Hne & Hc & ->).
    apply dict_get_set_ne.
    destruct (Hk line) as [?|[?|?]]; [by left | done | lia | done].
Qed.

End LoaderMore.

Section LoaderProperties.
Context `{Env}.

Lemma commas_zero_head (c : ascii) (s : string) :
  commas (String c s) = 0 -> Ascii.eqb c "," = false /\ commas s = 0.
Proof. cbn [commas]. destruct (Ascii.eqb c ","); [lia | by split]. Qed.

Lemma split_comma_app (a b : string) :
  commas a = 0 ->
  PyStr.split "," (a +:+ "," +:+ b) = a :: PyStr.split "," b.
Proof.
  induction a as [|c a IH]; intros Ha.
  - rewrite append_nil_l, append_cons, split_comma_cons. done.
  - apply commas_zero_head in Ha as [Hc Ha].
    rewrite append_cons, split_comma_cons, Hc, IH by done. done.
Qed.

Lemma entry_of_line_bare (line : string) :
  PyStr.strip line <> "" -> commas (PyStr.strip line) = 0 ->
  entry_of_line line = Some (PyStr.strip line, None).
Proof.
  intros Hl%is_empty_false Hc. unfold entry_of_line.
  by rewrite Hl, (split_comma_none _ Hc), strip_strip.
Qed.

Lemma entry_of_line_pair (line a b : string) :
  PyStr.strip line = a +:+ "," +:+ b -> commas (PyStr.strip line) <= 1 ->
  entry_of_line line = Some (PyStr.strip a, Some (PyStr.strip b)).
Proof.
  intros Hl Hc. unfold entry_of_line. rewrite Hl in *.
  rewrite !commas_app in Hc. cbn in Hc.
  replace (PyStr.is_empty (a +:+ "," +:+ b)) with false
    by by destruct a.
  rewrite split_comma_app, (split_comma_none b) by lia. done.
Qed.

(** X1. The value a term is looked up with is the one of the last line that
    stores the term: the marker for a bare line, the trimmed text after the
    comma for a line with one comma. *)
Theorem X1_last_line_for_a_term_wins
    (before after : list string) (line : string) (vocab : vocabulary) (w : world) :
  PyStr.strip line <> "" ->
  commas (PyStr.strip line) <= 1 ->
  (forall l, l ∈ after ->
     PyStr.strip l = "" \/ 2 <= commas (PyStr.strip l)
     \/ key_of_line l <> key_of_line line) ->
  exists vocab' w',
    load_lines (before ++ line :: after) vocab w = (inr vocab', w')
    /\ (commas (PyStr.strip line) = 0 ->
        dict_get (PyStr.strip line) vocab' = Some None)
    /\ (forall a b, PyStr.strip line = a +:+ "," +:+ b ->
        dict_get (PyStr.strip a) vocab' = Some (Some (PyStr.strip b))).
Proof.
  intros Hl Hc Hafter.
  destruct (load_lines_total (before ++ line :: after) vocab w)
    as (vocab' & w' & Hload & _).
  exists vocab', w'. split; [done |].
  rewrite load_lines_app in Hload.
  destruct (load_lines_total before vocab w) as (v1 & w1 & Hb & _).
  rewrite Hb, load_lines_cons in Hload.
  pose proof (load_lines_get_other _ _ _ _ _ (key_of_line line) Hafter Hload)
    as Hget.
  split.
  - intros H0. rewrite (entry_of_line_bare line Hl H0) in Hget.
    assert (key_of_line line = PyStr.strip line) as Hk.
    { unfold key_of_line. rewrite (split_comma_none _ H0). cbn [hd].
      apply strip_strip. }
    rewrite Hk, dict_get_set_eq in Hget. done.
  - intros a b Hab. rewrite (entry_of_line_pair line a b Hab Hc) in Hget.
    assert (key_of_line line = PyStr.strip a) as Hk.
    { unfold key_of_line. rewrite Hab, split_comma_app; [done |].
      rewrite Hab, !commas_app in Hc. cbn in Hc. lia. }
    rewrite Hk, dict_get_set_eq in Hget. done.
Qed.

Lemma commas_lstrip (s : string) : commas (PyStr.lstrip s) <= commas s.
Proof.
  induction s as [|c s IH]; [done |]. cbn [PyStr.lstrip].
  destruct (PyStr.is_space c); [cbn [commas]; lia | done].
Qed.

Lemma commas_rstrip (s : string) : commas (PyStr.rstrip s) <= commas s.
Proof.
  induction s as [|c s IH]; [done |]. cbn [PyStr.rstrip].
  destruct (PyStr.is_space c && PyStr.is_empty (PyStr.rstrip s));
    cbn [commas]; lia.
Qed.

Lemma commas_strip (s : string) : commas (PyStr.strip s) <= commas s.
Proof.
  unfold PyStr.strip. pose proof (commas_lstrip (PyStr.rstrip s)).
  pose proof (commas_rstrip s). lia.
Qed.

Lemma split_comma_parts (s : string) :
  Forall (fun p => commas p = 0) (PyStr.split "," s).
Proof.
  induction s as [|c s IH]; [by repeat constructor |].
  rewrite split_comma_cons. destruct (Ascii.eqb c ",") eqn:Hc.
  - by constructor.
  - destruct (PyStr.split "," s) as [|p ps].
    + constructor; [| constructor]. cbn [commas]. by rewrite Hc.
    + apply Forall_cons in IH as [Hp Hps]. constructor; [| done].
      cbn [commas]. by rewrite Hc.
Qed.

Lemma entry_of_line_trimmed (line k : string) (v : option string) :
  entry_of_line line = Some (k, v) ->
  PyStr.strip k = k /\ commas k = 0
  /\ forall r, v = Some r -> PyStr.strip r = r /\ commas r = 0.
Proof.
  unfold entry_of_line.
  destruct (PyStr.is_empty (PyStr.strip line)); [done |].
  pose proof (split_comma_parts (PyStr.strip line)) as Hparts.
  destruct (PyStr.split "," (PyStr.strip line)) as [|p0 [|p1 [|p2 ps]]];
    intros; simplify_eq/=.
  - apply Forall_cons in Hparts as [H0 _].
    pose proof (commas_strip p0).
    split; [apply strip_strip | split; [lia | done]].
  - apply Forall_cons in Hparts as [H0 [H1 _]%Forall_cons].
    pose proof (commas_strip p0). pose proof (commas_strip p1).
    split; [apply strip_strip | split; [lia |]].
    intros r [= <-]. split; [apply strip_strip | lia].
Qed.

Lemma load_lines_elem (lines : list string) (vocab vocab' : vocabulary)
    (w w' : world) (kv : string * option string) :
  load_lines lines vocab w = (inr vocab', w') ->
  kv ∈ vocab' ->
  kv ∈ vocab \/ exists line, line ∈ lines /\ entry_of_line line = Some kv.
Proof.
  revert vocab w. induction lines as [|line rest IH]; intros vocab w Hload Hin.
  - injection Hload as <- <-. by left.
  - rewrite load_lines_cons in Hload.
    destruct (IH _ _ Hload Hin) as [Hv|(l & Hl & He)].
    + destruct (entry_of_line line) as [[k v]|] eqn:He; [| by left].
      apply dict_set_elem in Hv as [->|?]; [| by left].
      right. exists line. split; [by left | done].
    + right. exists l. split; [by right | done].
Qed.

(** X2. What [load_vocabulary] returns has distinct terms, and every term and
    every replacement in it is trimmed and free of commas. *)
Theorem X2_loaded_entries_are_trimmed
    (p : string) (w w' : world) (vocab : vocabulary) :
  load_vocabulary p w = (Some vocab, w') ->
  NoDup (dict_keys vocab)
  /\ forall k v, (k, v) ∈ vocab ->
       PyStr.strip k = k /\ commas k = 0
       /\ forall r, v = Some r -> PyStr.strip r = r /\ commas r = 0.
Proof.
  intros Hload.
  destruct (load_vocabulary_cases p w)
    as [(data & dec & s & v & w1 & _ & _ & _ & Hl & _ & _ & _ & Hv)
       |(_ & e & msg & _ & Hv)]; [| congruence].
  rewrite Hv in Hload. injection Hload as -> ->. split.
  - eapply load_lines_nodup; [| exact Hl]. constructor.
  - intros k r Hin.
    destruct (load_lines_elem _ _ _ _ _ _ Hl Hin) as [Hnil|(line & _ & He)].
    + by apply elem_of_nil in Hnil.
    + by eapply entry_of_line_trimmed.
Qed.

End LoaderProperties.

Section LoaderLog.
Context `{Env}.

Lemma entry_of_line_value (line k : string) (v : option string) :
  entry_of_line line = Some (k, v) ->
  v = None <-> commas (PyStr.strip line) = 0.
Proof.
  unfold entry_of_line.
  destruct (PyStr.is_empty (PyStr.strip line)); [done |].
  pose proof (split_comma_length (PyStr.strip line)) as Hlen.
  destruct (PyStr.split "," (PyStr.strip line)) as [|p0 [|p1 [|p2 ps]]];
    cbn in Hlen; intros; simplify_eq/=; split; (done || lia).
Qed.

(** X3. A file of bare terms loads to markers only, a file in which every
    line that is not blank has a comma loads to literal replacements only:
    the first fits [--randomize], the second a run without it. *)
Theorem X3_vocabulary_fits_one_mode
    (lines : list string) (w w' : world) (vocab : vocabulary) :
  load_lines lines [] w = (inr vocab, w') ->
  ((forall l, l ∈ lines -> commas (PyStr.strip l) = 0) ->
   Forall (fun kv => kv.2 = None) vocab)
  /\ ((forall l, l ∈ lines ->
         PyStr.strip l = "" \/ 1 <= commas (PyStr.strip l)) ->
      Forall (fun kv => is_Some kv.2) vocab).
Proof.
  intros Hload. split; intros Hlines; apply Forall_forall; intros [k v] Hin;
    destruct (load_lines_elem _ _ _ _ _ _ Hload Hin) as [Hnil|(line & Hl & He)];
    try (by apply elem_of_nil in Hnil); cbn.
  - by apply (entry_of_line_value _ _ _ He), Hlines.
  - destruct v as [r|]; [by eexists |].
    pose proof (proj1 (entry_of_line_value _ _ _ He) eq_refl) as H0.
    apply entry_of_line_key in He as (Hne & _).
    destruct (Hlines line Hl) as [?|?]; [done | lia].
Qed.

Lemma emit_warning (msg : string) (w : world) :
  emit WARNING msg w
  = World (fs w) (threshold w)
      (log w ++ (if (level_num (threshold w) <=? 30)%Z
                 then [(WARNING, msg)] else []))
      (rand w).
Proof.
  unfold emit. cbn [level_num].
  destruct (level_num (threshold w) <=? 30)%Z; [done |].
  rewrite app_nil_r. by destruct w.
Qed.

(** X4. The loop over the lines changes nothing but the log, to which it adds
    one warning per line with two commas or more, in the order of the
    lines, when the log level admits warnings. *)
Theorem X4_one_warning_per_malformed_line
    (lines : list string) (vocab : vocabulary) (w : world) :
  exists vocab',
    load_lines lines vocab w
    = (inr vocab',
       World (fs w) (threshold w)
         (log w ++ (if (level_num (threshold w) <=? 30)%Z
                    then (fun l => (WARNING, warning_text l))
                           <$> filter (fun l => malformed l) lines
                    else []))
         (rand w)).
Proof.
  revert vocab w. induction lines as [|line rest IH]; intros vocab w.
  - exists vocab. rewrite filter_nil, fmap_nil.
    destruct (_ <=? _)%Z; rewrite app_nil_r; by destruct w.
  - rewrite load_lines_cons.
    destruct (malformed line) eqn:Hm.
    + edestruct IH as [vocab' ->]. exists vocab'. f_equal.
      rewrite emit_warning. cbn [fs threshold log rand].
      rewrite filter_cons_True by by rewrite Hm.
      destruct (_ <=? _)%Z; [| by rewrite !app_nil_r].
      by rewrite fmap_cons, <- app_assoc.
    + edestruct IH as [vocab' ->]. exists vocab'.
      rewrite filter_cons_False; [done |]. rewrite Hm. by intros [].
Qed.

Lemma entry_of_line_strip (line : string) :
  entry_of_line (PyStr.strip line) = entry_of_line line.
Proof. unfold entry_of_line. by rewrite strip_strip. Qed.

Lemma malformed_strip (line : string) :
  malformed (PyStr.strip line) = malformed line.
Proof. unfold malformed. by rewrite strip_strip. Qed.

(** X5. White space around a line and blank lines make no difference to what
    is loaded and logged. *)
Theorem X5_loader_ignores_margins_and_blank_lines
    (lines : list string) (vocab : vocabulary) (w : world) :
  load_lines (PyStr.strip <$> lines) vocab w = load_lines lines vocab w
  /\ load_lines (filter (fun l => PyStr.strip l <> "") lines) vocab w
     = load_lines lines vocab w.
Proof.
  split; revert vocab w; induction lines as [|line rest IH]; intros vocab w;
    try done.
  - rewrite fmap_cons, !load_lines_cons, entry_of_line_strip, malformed_strip.
    unfold warning_text. rewrite strip_strip. apply IH.
  - destruct (decide (PyStr.strip line = "")) as [Hl|Hl].
    + rewrite filter_cons_False by (intros ?; done).
      rewrite (load_lines_blank line) by done. apply IH.
    + rewrite filter_cons_True by done.
      rewrite !load_lines_cons. apply IH.
Qed.

End LoaderLog.

Section RunMore.
Context `{Env}.

Lemma open_rb_world (p : string) (w w' : world) (r : exn + list byte) :
  open_rb p w = (r, w') -> w' = w.
Proof. unfold open_rb. intros Ho. repeat case_match; by simplify_eq. Qed.

Lemma read_world (p : string) (dec : list byte -> option string)
    (w w' : world) (r : exn + string) :
  read p dec w = (r, w') -> w' = w.
Proof. unfold read. intros Ho. repeat case_match; by simplify_eq. Qed.

Lemma open_w_world (p : string) (w w' : world) (r : exn + unit) :
  open_w p w = (r, w') ->
  (exists e, r = inl e /\ w' = w)
  \/ (r = inr tt /\ w' = set_fs (<[p := File []]> (fs w)) w).
Proof.
  unfold open_w. intros Ho.
  repeat case_match; simplify_eq; (by left; eauto) || by right.
Qed.

Lemma randomized_loop_world (vocab : vocabulary) (text : string)
    (w w' : world) (r : exn + (string + Z)) :
  randomized_loop vocab text w = (r, w') ->
  fs w' = fs w /\ threshold w' = threshold w.
Proof.
  revert text w. induction vocab as [|[k [v|]] vocab IH]; intros text w Hr.
  - by injection Hr as <- <-.
  - cbn [randomized_loop] in Hr. io_simpl. injection Hr as <- <-.
    by rewrite emit_fs, emit_threshold.
  - cbn [randomized_loop] in Hr. io_simpl. rewrite name_run in Hr.
    by destruct (IH _ _ Hr) as [-> ->].
Qed.

Lemma literal_loop_world (vocab : vocabulary) (text : string)
    (w w' : world) (r : exn + string) :
  literal_loop vocab text w = (r, w') -> w' = w.
Proof.
  intros Hr.
  destruct (literal_loop_cases vocab text w) as [(t & Ht & _)|[Ht _]];
    rewrite Ht in Hr; by simplify_eq.
Qed.

(** How a run leaves the files: as they were, or with the output path
    emptied, or with the output path holding an encoded text. *)
Lemma replace_terms_try_fs (inp out : string) (vocab : vocabulary)
    (rnd : bool) (w w' : world) (r : exn + Z) :
  replace_terms_try inp vocab out rnd w = (r, w') ->
  fs w' = fs w
  \/ fs w' = <[out := File []]> (fs w)
  \/ exists t, fs w' = <[out := File (encoded t)]> (fs w).
Proof.
  unfold replace_terms_try, open_r. io_simpl. intros Hrun.
  destruct (open_rb inp w) as [[e|data] w0] eqn:H0;
    apply open_rb_world in H0 as ->; [left; by simplify_eq |].
  destruct (open_rb inp w) as [[e|data'] w0] eqn:H0;
    apply open_rb_world in H0 as ->; [left; by simplify_eq |].
  destruct (codec _) as [dec|]; [| left; by simplify_eq].
  destruct (open_w out w) as [r1 w1] eqn:H1.
  apply open_w_world in H1 as [(e' & -> & ->)|[-> ->]];
    [left; by simplify_eq |].
  destruct (read inp dec _) as [[e|text] w2] eqn:H2;
    apply read_world in H2 as ->; [right; left; by simplify_eq |].
  unfold write in Hrun.
  destruct rnd.
  - destruct (randomized_loop vocab text _) as [[e|[t|code]] w3] eqn:H3;
      apply randomized_loop_world in H3 as [Hfs _];
      cbn beta iota zeta in Hrun; simplify_eq.
    + right; left. by rewrite Hfs.
    + right; right. exists t. rewrite emit_fs. cbn [fs set_fs] in *.
      by rewrite Hfs, insert_insert_eq.
    + right; left. by rewrite Hfs.
  - destruct (literal_loop vocab text _) as [[e|t] w3] eqn:H3;
      apply literal_loop_world in H3 as ->;
      cbn beta iota zeta in Hrun; simplify_eq.
    + by right; left.
    + right; right. exists t. rewrite emit_fs. cbn [fs set_fs].
      by rewrite insert_insert_eq.
Qed.

Lemma replace_terms_fs (inp out : string) (vocab : vocabulary)
    (rnd : bool) (w : world) :
  fs (replace_terms inp vocab out rnd w).2 = fs w
  \/ fs (replace_terms inp vocab out rnd w).2 = <[out := File []]> (fs w)
  \/ exists t,
       fs (replace_terms inp vocab out rnd w).2
       = <[out := File (encoded t)]> (fs w).
Proof.
  unfold replace_terms.
  destruct (replace_terms_try inp vocab out rnd w) as [r w1] eqn:Hrun.
  apply replace_terms_try_fs in Hrun.
  destruct r as [e|code]; [destruct e |]; cbn [snd]; rewrite ?emit_fs; done.
Qed.

(** X6. Whatever the mode and however the run ends, [replace_terms]
    changes no file but the one at the output path, and leaves that one as
    it was, or empty, or holding the encoding of a text. *)
Theorem X6_replace_terms_changes_only_the_output
    (inp out : string) (vocab : vocabulary) (rnd : bool) (w : world) :
  let w' := (replace_terms inp vocab out rnd w).2 in
  (forall p, p <> out -> fs w' !! p = fs w !! p)
  /\ (fs w' !! out = fs w !! out
      \/ fs w' !! out = Some (File [])
      \/ exists t, fs w' !! out = Some (File (encoded t))).
Proof.
  intros w'. subst w'.
  destruct (replace_terms_fs inp out vocab rnd w) as [->|[->|[t ->]]].
  - split; [done | by left].
  - split; [intros p Hp; by rewrite lookup_insert_ne |].
    right; left. apply lookup_insert_eq.
  - split; [intros p Hp; by rewrite lookup_insert_ne |].
    right; right. exists t. apply lookup_insert_eq.
Qed.

End RunMore.

Section RunEdges.
Context `{Env}.

(** X7. An input that cannot be opened, or whose detected encoding is not a
    known codec, ends the run with result 1 before the output file is
    opened: one error record and nothing else changes.  A missing input is
    reported as not found, the other cases as processing errors. *)
Theorem X7_failure_before_output_is_opened
    (inp out : string) (vocab : vocabulary) (rnd : bool) (w : world) :
  (fs w !! inp = None ->
   replace_terms inp vocab out rnd w
   = (1%Z, emit ERROR ("Input file not found: " +:+ inp) w))
  /\ (fs w !! inp = Some Dir ->
      replace_terms inp vocab out rnd w
      = (1%Z, emit ERROR ("Error processing file: "
                          +:+ exn_text (IsADirectoryError inp)) w))
  /\ (fs w !! inp = Some Denied ->
      replace_terms inp vocab out rnd w
      = (1%Z, emit ERROR ("Error processing file: "
                          +:+ exn_text (PermissionError inp)) w))
  /\ (forall data,
         fs w !! inp = Some (File data) ->
         codec (default preferred_encoding (detect data)) = None ->
         replace_terms inp vocab out rnd w
         = (1%Z, emit ERROR
                   ("Error processing file: "
                    +:+ exn_text (LookupError
                                    (default preferred_encoding (detect data))))
                   w)).
Proof.
  unfold replace_terms, replace_terms_try, open_r, open_rb. io_simpl.
  split; [| split; [| split]].
  - by intros ->.
  - by intros ->.
  - by intros ->.
  - intros data Hin Hc. rewrite !Hin. cbn beta iota. by rewrite Hc.
Qed.

(** X8. When the directory of the output path does not exist, opening the
    output raises [FileNotFoundError], which the handler meant for the
    input catches: the run ends with result 1 and the record says that the
    input file was not found, although it was read. *)
Theorem X8_missing_output_directory_is_reported_as_missing_input
    (inp out dir : string) (vocab : vocabulary) (rnd : bool) (w : world)
    (data : list byte) (dec : list byte -> option string) :
  fs w !! inp = Some (File data) ->
  codec (default preferred_encoding (detect data)) = Some dec ->
  fs w !! out = None ->
  parent out = Some dir ->
  fs w !! dir = None ->
  replace_terms inp vocab out rnd w
  = (1%Z, emit ERROR ("Input file not found: " +:+ inp) w).
Proof.
  intros Hin Hc Hout Hp Hd.
  unfold replace_terms, replace_terms_try, open_r, open_rb, open_w. io_simpl.
  rewrite !Hin. cbn beta iota. rewrite Hc. cbn beta iota.
  by rewrite Hout, Hp, Hd.
Qed.

(** X9. An input that does not decode ends the run with result 1 after the
    output file was opened: the output file is left empty. *)
Theorem X9_undecodable_input_leaves_empty_output
    (inp out : string) (vocab : vocabulary) (rnd : bool) (w : world)
    (data : list byte) (dec : list byte -> option string) :
  inp <> out ->
  fs w !! inp = Some (File data) ->
  codec (default preferred_encoding (detect data)) = Some dec ->
  dec data = None ->
  (open_w out w).1 = inr tt ->
  replace_terms inp vocab out rnd w
  = (1%Z, emit ERROR ("Error processing file: " +:+ exn_text UnicodeDecodeError)
            (open_w out w).2)
  /\ fs (replace_terms inp vocab out rnd w).2 !! out = Some (File []).
Proof.
  intros Hne Hin Hc Hdec Hopen.
  assert (replace_terms inp vocab out rnd w
          = (1%Z, emit ERROR ("Error processing file: "
                              +:+ exn_text UnicodeDecodeError)
                    (open_w out w).2)) as Hrun.
  { unfold replace_terms, replace_terms_try, open_r, open_rb. io_simpl.
    rewrite !Hin. cbn beta iota. rewrite Hc. cbn beta iota.
    destruct (open_w out w) as [r1 w1] eqn:Ho. cbn [fst snd] in *. subst r1.
    unfold read. rewrite (open_w_fs _ _ _ Ho), lookup_insert_ne, Hin, Hdec by done.
    done. }
  split; [done |]. rewrite Hrun. cbn [snd]. rewrite emit_fs.
  destruct (open_w out w) as [r1 w1] eqn:Ho. cbn [fst snd] in *. subst r1.
  rewrite (open_w_fs _ _ _ Ho). apply lookup_insert_eq.
Qed.

Lemma replace_empty_text (k r : string) : k <> "" -> PyStr.replace k r "" = "".
Proof. intros Hk%is_empty_false. unfold PyStr.replace. by rewrite Hk. Qed.

Lemma replace_all_empty_text (pairs : list (string * string)) :
  Forall (fun kv => kv.1 <> "") pairs -> replace_all pairs "" = "".
Proof.
  unfold replace_all. induction 1 as [|[k r] pairs Hk _ IH]; [done |].
  cbn [fold_left fst snd]. by rewrite replace_empty_text.
Qed.

(** X10. A run whose output path is its input path loses the text: the file is
    emptied when it is opened for writing, before it is read, so that the
    run substitutes in the empty text, writes it and returns 0. *)
Theorem X10_run_in_place_empties_the_file
    (p : string) (vocab : vocabulary) (w : world)
    (data : list byte) (dec : list byte -> option string) :
  fs w !! p = Some (File data) ->
  codec (default preferred_encoding (detect data)) = Some dec ->
  dec [] = Some "" ->
  Forall (fun kv => is_Some kv.2) vocab ->
  Forall (fun kv => kv.1 <> "") vocab ->
  (replace_terms p vocab p false w).1 = 0%Z
  /\ fs (replace_terms p vocab p false w).2 !! p = Some (File []).
Proof.
  intros Hin Hc Hdec Hsome Hkeys.
  assert (open_w p w = (inr tt, set_fs (<[p := File []]> (fs w)) w)) as Ho.
  { unfold open_w. by rewrite Hin. }
  erewrite replace_terms_literal; [| exact Hin | exact Hc | exact Ho | | exact Hsome].
  - split; [done |]. cbn [snd]. rewrite written_lookup.
    by rewrite replace_all_empty_text by by apply concrete_keys.
  - unfold read. cbn [fs set_fs]. by rewrite lookup_insert_eq, Hdec.
Qed.

Lemma open_w_rand (p : string) (w w1 : world) (r : exn + unit) :
  open_w p w = (r, w1) -> rand w1 = rand w.
Proof.
  intros [(e & _ & ->)|[_ ->]]%open_w_world; done.
Qed.

(** X11. A run with [--randomize] over a vocabulary of bare terms returns 0 and
    writes the text in which the i-th term is replaced by the i-th name
    drawn; the random source has been asked once per term. *)
Theorem X11_randomized_run_writes_generated_names
    (inp out : string) (vocab : vocabulary) (w : world)
    (data : list byte) (dec : list byte -> option string) (text : string) :
  fs w !! inp = Some (File data) ->
  codec (default preferred_encoding (detect data)) = Some dec ->
  (open_w out w).1 = inr tt ->
  (read inp dec (open_w out w).2).1 = inr text ->
  Forall (fun kv => kv.2 = None) vocab ->
  let names := (draw (length vocab) (rand w)).1 in
  let new := replace_all (zip vocab.*1 names) text in
  (replace_terms inp vocab out true w).1 = 0%Z
  /\ fs (replace_terms inp vocab out true w).2 !! out = Some (File (encoded new))
  /\ rand (replace_terms inp vocab out true w).2
     = (draw (length vocab) (rand w)).2.
Proof.
  intros Hin Hc Hopen%open_w_ok Hread Hall names new.
  unfold replace_terms.
  erewrite replace_terms_try_loop by done.
  rewrite randomized_loop_all_markers by done.
  rewrite (open_w_rand _ _ _ _ Hopen). cbn [fst snd].
  split; [done | split].
  - apply written_lookup.
  - unfold written. by rewrite emit_rand.
Qed.

Lemma intersperse_nothing (t : string) : PyStr.intersperse "" t = t.
Proof.
  induction t as [|c t IH]; [done |]. cbn [PyStr.intersperse].
  by rewrite append_nil_l, IH.
Qed.

Lemma replace_self (k t : string) : PyStr.replace k k t = t.
Proof.
  destruct k as [|c k]; [apply intersperse_nothing |].
  destruct (replace_join_split (String c k) (String c k) t) as [-> ->]; done.
Qed.

Lemma replace_from_absent (k r t : string) :
  contains k t = false -> PyStr.replace_from k r 0 t = t.
Proof.
  induction t as [|c t IH]; [done |]. cbn [contains PyStr.replace_from].
  intros [Hp Ht]%orb_false_elim. by rewrite Hp, IH.
Qed.

Lemma replace_absent (k r t : string) :
  contains k t = false -> PyStr.replace k r t = t.
Proof.
  intros Hno. unfold PyStr.replace. destruct k as [|c k].
  - by destruct t.
  - by apply replace_from_absent.
Qed.

(** X12. Entries whose term does not occur in the text, and entries that
    map a term to itself, leave the text as it is. *)
Theorem X12_literal_loop_without_effect
    (vocab : vocabulary) (text : string) (w : world) :
  Forall (fun kv => exists r, kv.2 = Some r
                              /\ (contains kv.1 text = false \/ r = kv.1)) vocab ->
  literal_loop vocab text w = (inr text, w).
Proof.
  induction 1 as [|[k v] vocab (r & Hv & Hk) _ IH]; [done |].
  cbn in Hv. subst v. cbn [literal_loop].
  destruct Hk as [Hno| ->].
  - by rewrite replace_absent.
  - by rewrite replace_self.
Qed.

End RunEdges.

Section MainMore.
Context `{Env}.

Lemma load_vocabulary_fs (p : string) (w : world) :
  fs (load_vocabulary p w).2 = fs w.
Proof.
  destruct (load_vocabulary_cases p w)
    as [(data & dec & s & v & w1 & _ & _ & _ & _ & Hfs & _ & _ & ->)
       |(_ & e & msg & _ & ->)]; [done | apply emit_fs].
Qed.

(** X13. [main] changes no file but the one at the output path, and changes no
    file at all when the input or the vocabulary file is missing or the
    vocabulary does not load; the status is then 1. *)
Theorem X13_main_changes_only_the_output (a : args) (w : world) :
  (forall p, p <> output_file a -> fs (main a w).2 !! p = fs w !! p)
  /\ (fs w !! input_file a = None
      \/ fs w !! vocabulary_file a = None
      \/ (load_vocabulary (vocabulary_file a) (setLevel (log_level a) w)).1 = None ->
      (main a w).1 = 1%Z /\ fs (main a w).2 = fs w).
Proof.
  assert (Hearly :
            fs w !! input_file a = None
            \/ fs w !! vocabulary_file a = None
            \/ (load_vocabulary (vocabulary_file a)
                  (setLevel (log_level a) w)).1 = None ->
            (main a w).1 = 1%Z /\ fs (main a w).2 = fs w).
  { intros Hcase.
    destruct (fs w !! input_file a) as [ni|] eqn:Hi.
    2: { rewrite main_missing_input by done. split; [done | cbn [snd]; by rewrite emit_fs]. }
    destruct (fs w !! vocabulary_file a) as [nv|] eqn:Hv.
    2: { rewrite main_missing_vocabulary by by rewrite ?Hi.
         split; [done | cbn [snd]; by rewrite emit_fs]. }
    destruct Hcase as [?|[?|Hnone]]; [done | done |].
    rewrite main_both_exist by by rewrite ?Hi, ?Hv.
    pose proof (load_vocabulary_fs (vocabulary_file a)
                  (setLevel (log_level a) w)) as Hfs.
    destruct (load_vocabulary _ _) as [[vocab|] w1]; [done |]. done. }
  split; [| done].
  intros p Hp.
  destruct (fs w !! input_file a) as [ni|] eqn:Hi.
  2: { destruct Hearly as [_ ->]; [by left | done]. }
  destruct (fs w !! vocabulary_file a) as [nv|] eqn:Hv.
  2: { destruct Hearly as [_ ->]; [right; by left | done]. }
  rewrite main_both_exist by by rewrite ?Hi, ?Hv.
  pose proof (load_vocabulary_fs (vocabulary_file a)
                (setLevel (log_level a) w)) as Hfs.
  destruct (load_vocabulary _ _) as [[vocab|] w1]; cbn [snd] in *.
  - destruct (replace_terms_fs (input_file a) (output_file a) vocab
                (randomize a) w1) as [->|[->|[t ->]]];
      rewrite ?lookup_insert_ne by done; by rewrite Hfs.
  - by rewrite Hfs.
Qed.

(** *** The log *)

Lemma log_grows_refl (w : world) : log_grows w w.
Proof. split; [done |]. exists []. by rewrite app_nil_r. Qed.

Lemma log_grows_trans (w1 w2 w3 : world) :
  log_grows w1 w2 -> log_grows w2 w3 -> log_grows w1 w3.
Proof.
  intros [Ht1 (r1 & Hl1 & Hf1)] [Ht2 (r2 & Hl2 & Hf2)].
  split; [congruence |]. exists (r1 ++ r2).
  split; [by rewrite Hl2, Hl1, app_assoc |].
  apply Forall_app. split; [done |]. by rewrite <- Ht1.
Qed.

Lemma log_grows_emit (l : level) (msg : string) (w : world) :
  log_grows w (emit l msg w).
Proof.
  unfold emit. destruct (level_num (threshold w) <=? level_num l)%Z eqn:Hl;
    [| apply log_grows_refl].
  split; [done |]. exists [(l, msg)]. split; [done |].
  constructor; [| constructor]. by apply Z.leb_le.
Qed.

Lemma io_grows_ret {A : Type} (a : A) : io_grows (mret a).
Proof. intros w r w' [= <- <-]. apply log_grows_refl. Qed.

Lemma io_grows_raise {A : Type} (e : exn) : io_grows (raise (A := A) e).
Proof. intros w r w' [= <- <-]. apply log_grows_refl. Qed.

Lemma io_grows_bind {A B : Type} (m : io A) (f : A -> io B) :
  io_grows m -> (forall a, io_grows (f a)) -> io_grows (m ≫= f).
Proof.
  intros Hm Hf w r w' Hrun. unfold mbind, io_bind in Hrun.
  destruct (m w) as [[e|a] w1] eqn:Hmw.
  - injection Hrun as <- <-. by eapply Hm.
  - eapply log_grows_trans; [by eapply Hm | by eapply Hf].
Qed.

Lemma io_grows_logging (l : level) (msg : string) : io_grows (logging l msg).
Proof. intros w r w' [= <- <-]. apply log_grows_emit. Qed.

Lemma io_grows_open_rb (p : string) : io_grows (open_rb p).
Proof. intros w r w' ->%open_rb_world. apply log_grows_refl. Qed.

Lemma io_grows_read (p : string) (dec : list byte -> option string) :
  io_grows (read p dec).
Proof. intros w r w' ->%read_world. apply log_grows_refl. Qed.

Lemma io_grows_open_w (p : string) : io_grows (open_w p).
Proof.
  intros w r w' [(e & _ & ->)|[_ ->]]%open_w_world; [apply log_grows_refl |].
  split; [done |]. exists []. by rewrite app_nil_r.
Qed.

Lemma io_grows_write (p text : string) : io_grows (write p text).
Proof.
  intros w r w' [= <- <-]. split; [done |]. exists []. by rewrite app_nil_r.
Qed.

Lemma io_grows_name : io_grows name.
Proof.
  intros w r w' Hn. rewrite name_run in Hn. injection Hn as <- <-.
  split; [done |]. exists []. by rewrite app_nil_r.
Qed.

Lemma io_grows_open_r (p : string) (enc : option string) : io_grows (open_r p enc).
Proof.
  unfold open_r. apply io_grows_bind; [apply io_grows_open_rb |].
  intros _. destruct (codec _); [apply io_grows_ret | apply io_grows_raise].
Qed.

Lemma io_grows_load_lines (lines : list string) (vocab : vocabulary) :
  io_grows (load_lines lines vocab).
Proof.
  revert vocab. induction lines as [|line rest IH]; intros vocab.
  - apply io_grows_ret.
  - cbn [load_lines]. destruct (PyStr.is_empty _); [apply IH |].
    destruct (PyStr.split _ _) as [|p0 [|p1 [|p2 ps]]]; try apply IH.
    all: apply io_grows_bind; [apply io_grows_logging | intros _; apply IH].
Qed.

Lemma io_grows_randomized_loop (vocab : vocabulary) (text : string) :
  io_grows (randomized_loop vocab text).
Proof.
  revert text. induction vocab as [|[k [v|]] vocab IH]; intros text.
  - apply io_grows_ret.
  - cbn [randomized_loop]. apply io_grows_bind; [apply io_grows_logging |].
    intros _. apply io_grows_ret.
  - cbn [randomized_loop]. apply io_grows_bind; [apply io_grows_name |].
    intros n. apply IH.
Qed.

Lemma io_grows_literal_loop (vocab : vocabulary) (text : string) :
  io_grows (literal_loop vocab text).
Proof. intros w r w' ->%literal_loop_world. apply log_grows_refl. Qed.

Lemma io_grows_replace_terms_try (inp out : string) (vocab : vocabulary)
    (rnd : bool) :
  io_grows (replace_terms_try inp vocab out rnd).
Proof.
  unfold replace_terms_try.
  apply io_grows_bind; [apply io_grows_open_rb | intros data].
  apply io_grows_bind; [apply io_grows_open_r | intros dec].
  apply io_grows_bind; [apply io_grows_open_w | intros _].
  apply io_grows_bind; [apply io_grows_read | intros text].
  apply io_grows_bind.
  - destruct rnd; [apply io_grows_randomized_loop |].
    apply io_grows_bind; [apply io_grows_literal_loop |].
    intros t. apply io_grows_ret.
  - intros [t|code]; [| apply io_grows_ret].
    apply io_grows_bind; [apply io_grows_write | intros _].
    apply io_grows_bind; [apply io_grows_logging | intros _].
    apply io_grows_ret.
Qed.

Lemma log_grows_replace_terms (inp out : string) (vocab : vocabulary)
    (rnd : bool) (w : world) :
  log_grows w (replace_terms inp vocab out rnd w).2.
Proof.
  unfold replace_terms.
  destruct (replace_terms_try inp vocab out rnd w) as [r w1] eqn:Hrun.
  apply io_grows_replace_terms_try in Hrun.
  destruct r as [e|code]; [| done].
  destruct e; cbn [snd];
    (eapply log_grows_trans; [exact Hrun | apply log_grows_emit]).
Qed.

Lemma log_grows_load_vocabulary (p : string) (w : world) :
  log_grows w (load_vocabulary p w).2.
Proof.
  unfold load_vocabulary.
  destruct (load_vocabulary_try p w) as [r w1] eqn:Hrun.
  assert (log_grows w w1) as Hg.
  { revert Hrun. unfold load_vocabulary_try.
    apply io_grows_bind; [apply io_grows_open_r | intros dec].
    apply io_grows_bind; [apply io_grows_read | intros text].
    apply io_grows_load_lines. }
  destruct r as [e|v]; [| done].
  destruct e; cbn [snd];
    (eapply log_grows_trans; [exact Hg | apply log_grows_emit]).
Qed.

(** X14. Under [--log_level L] a run never removes or changes a record of the
    log, adds no record below [L], and ends with the logger at [L]. *)
Theorem X14_main_logs_at_or_above_the_chosen_level (a : args) (w : world) :
  threshold (main a w).2 = log_level a
  /\ exists recs,
       log (main a w).2 = log w ++ recs
       /\ Forall (fun r => (level_num (log_level a) <= level_num r.1)%Z) recs.
Proof.
  assert (log_grows (setLevel (log_level a) w) (main a w).2) as [Ht Hl].
  { unfold main. set (w0 := setLevel (log_level a) w).
    destruct (negb (path_exists (input_file a) w0)); [apply log_grows_emit |].
    destruct (negb (path_exists (vocabulary_file a) w0));
      [apply log_grows_emit |].
    pose proof (log_grows_load_vocabulary (vocabulary_file a) w0) as Hload.
    destruct (load_vocabulary (vocabulary_file a) w0) as [[vocab|] w1];
      cbn [snd] in Hload; [| done].
    eapply log_grows_trans; [exact Hload | apply log_grows_replace_terms]. }
  done.
Qed.

End MainMore.

Section RoundTrips.

Lemma decode_utf8_char (c : ascii) (rest : list byte) :
  Sample.decode_utf8 (TextIO.utf8_encode_char c ++ rest)
  = String c <$> Sample.decode_utf8 rest.
Proof.
  destruct c as [[] [] [] [] [] [] [] []]; reflexivity.
Qed.

(** X15. What is written is UTF-8: decoding the bytes of an encoded text
    gives the text back. *)
Theorem X15_utf8_encode_round_trip (s : string) :
  Sample.decode_utf8 (TextIO.utf8_encode s) = Some s.
Proof.
  induction s as [|c s IH]; [done |].
  cbn [TextIO.utf8_encode]. by rewrite decode_utf8_char, IH.
Qed.

Lemma universal_newlines_no_cr_step (s : string) :
  no_cr (TextIO.universal_newlines s) = true
  /\ forall c, no_cr (TextIO.universal_newlines (String c s)) = true.
Proof.
  induction s as [|c' s [IH1 IH2]].
  - split; [done |]. intros c. cbn [TextIO.universal_newlines].
    destruct (Ascii.eqb c TextIO.CR) eqn:Hc; [done |].
    cbn [no_cr]. by rewrite Hc.
  - split; [apply IH2 |]. intros c.
    change (TextIO.universal_newlines (String c (String c' s)))
      with (if Ascii.eqb c TextIO.CR
            then if Ascii.eqb c' TextIO.LF
                 then String TextIO.LF (TextIO.universal_newlines s)
                 else String TextIO.LF (TextIO.universal_newlines (String c' s))
            else String c (TextIO.universal_newlines (String c' s))).
    destruct (Ascii.eqb c TextIO.CR) eqn:Hc.
    + destruct (Ascii.eqb c' TextIO.LF); cbn [no_cr];
        by rewrite ?IH1, ?IH2.
    + cbn [no_cr]. by rewrite Hc, IH2.
Qed.

Lemma universal_newlines_no_cr (s : string) :
  no_cr (TextIO.universal_newlines s) = true.
Proof. apply universal_newlines_no_cr_step. Qed.

(** X16. A text without carriage returns that is written with the line
    separator of the platform, a line feed or a carriage return and a line
    feed, reads back as the same text; and every text that is read is
    without carriage returns. *)
Theorem X16_written_text_reads_back (sep text : string) :
  sep = String TextIO.LF "" \/ sep = String TextIO.CR (String TextIO.LF "") ->
  no_cr text = true ->
  TextIO.universal_newlines (TextIO.write_newlines sep text) = text
  /\ forall s, no_cr (TextIO.universal_newlines s) = true.
Proof.
  intros Hsep Htext. split; [| apply universal_newlines_no_cr].
  induction text as [|c text IH]; [done |].
  cbn [no_cr] in Htext. apply andb_prop in Htext as [Hc Ht].
  apply negb_true_iff in Hc. cbn [TextIO.write_newlines].
  destruct (Ascii.eqb_spec c TextIO.LF) as [->|Hlf].
  - destruct Hsep as [->| ->]; rewrite !append_cons, append_nil_l;
      cbn [TextIO.universal_newlines]; cbn; by rewrite IH.
  - cbn [TextIO.universal_newlines]. by rewrite Hc, IH.
Qed.

End RoundTrips.

Section LoaderOrder.
Context `{Env}.

Lemma rstrip_app_space (l : string) (c : ascii) :
  PyStr.is_space c = true ->
  PyStr.rstrip (l +:+ String c "") = PyStr.rstrip l.
Proof.
  intros Hc. induction l as [|d l IH].
  - rewrite append_nil_l. cbn. by rewrite Hc.
  - rewrite append_cons. cbn [PyStr.rstrip]. by rewrite IH.
Qed.

Lemma strip_app_lf (l : string) :
  PyStr.strip (l +:+ String TextIO.LF "") = PyStr.strip l.
Proof. unfold PyStr.strip. by rewrite rstrip_app_space. Qed.

Lemma load_lines_same_strip (l1 l2 : string) (rest : list string)
    (vocab : vocabulary) (w : world) :
  PyStr.strip l1 = PyStr.strip l2 ->
  load_lines (l1 :: rest) vocab w = load_lines (l2 :: rest) vocab w.
Proof.
  intros Hs. rewrite !load_lines_cons.
  unfold entry_of_line, malformed, warning_text. by rewrite Hs.
Qed.

Lemma readlines_cons_other (c : ascii) (s : string) :
  Ascii.eqb c TextIO.LF = false ->
  TextIO.readlines (String c s)
  = match TextIO.readlines s with
    | l :: ls => String c l :: ls
    | [] => [String c ""]
    end.
Proof. intros Hc. cbn [TextIO.readlines]. by rewrite Hc. Qed.

(** The lines of a text with one more line feed at its end: one more
    empty line, or the last line with the line feed it lacked. *)
Lemma readlines_app_lf (s : string) :
  TextIO.readlines (s +:+ String TextIO.LF "")
  = TextIO.readlines s ++ [String TextIO.LF ""]
  \/ exists init l,
       TextIO.readlines s = init ++ [l]
       /\ TextIO.readlines (s +:+ String TextIO.LF "")
          = init ++ [l +:+ String TextIO.LF ""].
Proof.
  induction s as [|c s IH]; [by left |].
  rewrite append_cons.
  destruct (Ascii.eqb c TextIO.LF) eqn:Hc.
  - cbn [TextIO.readlines]. rewrite Hc.
    destruct IH as [->|(init & l & -> & ->)]; [by left |].
    right. by exists (String c "" :: init), l.
  - rewrite !readlines_cons_other by done.
    destruct IH as [->|(init & l & -> & ->)].
    + destruct (TextIO.readlines s) as [|l ls].
      * right. by exists [], (String c "").
      * by left.
    + right. destruct init as [|i init].
      * by exists [], (String c l).
      * by exists (String c i :: init), l.
Qed.

(** X17. A line feed more or less at the end of the vocabulary text makes
    no difference to what is loaded and logged. *)
Theorem X17_final_newline_makes_no_difference
    (s : string) (vocab : vocabulary) (w : world) :
  load_lines (TextIO.readlines (s +:+ String TextIO.LF "")) vocab w
  = load_lines (TextIO.readlines s) vocab w.
Proof.
  destruct (readlines_app_lf s) as [->|(init & l & -> & ->)];
    rewrite !load_lines_app.
  - destruct (load_lines_total (TextIO.readlines s) vocab w)
      as (v1 & w1 & -> & _).
    by rewrite load_lines_blank.
  - destruct (load_lines_total init vocab w) as (v1 & w1 & -> & _).
    apply load_lines_same_strip, strip_app_lf.
Qed.

(** X18. A line for a term that is already stored leaves every term at
    its place in the order of the vocabulary, which is the order of the
    substitutions; a line for a new term puts it last. *)
Theorem X18_restated_term_keeps_its_position
    (lines : list string) (line : string) (vocab v1 : vocabulary) (w w1 : world) :
  load_lines lines vocab w = (inr v1, w1) ->
  PyStr.strip line <> "" ->
  commas (PyStr.strip line) <= 1 ->
  exists v2 w2,
    load_lines (lines ++ [line]) vocab w = (inr v2, w2)
    /\ dict_keys v2
       = if decide (key_of_line line ∈ dict_keys v1) then dict_keys v1
         else dict_keys v1 ++ [key_of_line line].
Proof.
  intros Hload Hl Hc.
  rewrite load_lines_app, Hload, load_lines_cons.
  assert (exists v, entry_of_line line = Some (key_of_line line, v)) as [v ->].
  { unfold entry_of_line, key_of_line.
    apply is_empty_false in Hl as ->.
    pose proof (split_comma_length (PyStr.strip line)) as Hlen.
    destruct (PyStr.split "," (PyStr.strip line)) as [|p0 [|p1 [|p2 ps]]];
      cbn in Hlen; [lia | by eexists | by eexists | lia]. }
  eexists _, _. split; [done |].
  destruct (decide (key_of_line line ∈ dict_keys v1)) as [Hin|Hout].
  - by apply dict_set_present.
  - by apply dict_set_fresh.
Qed.

End LoaderOrder.

Section MoreRuns.
Import Sample.

Lemma X1_witness :
  PyStr.strip " a , 2 " <> ""
  /\ commas (PyStr.strip " a , 2 ") <= 1
  /\ exists vocab' w',
       @load_lines env ["a,1"; " a , 2 "; "b,3"; "x,y,z"] [] (world_of [])
       = (inr vocab', w')
       /\ dict_get "a" vocab' = Some (Some "2").
Proof.
  assert (h1 : PyStr.strip " a , 2 " <> "") by (vm_compute; discriminate).
  assert (h2 : commas (PyStr.strip " a , 2 ") <= 1) by (vm_compute; lia).
  assert (h3 : forall l, l ∈ ["b,3"; "x,y,z"] ->
                 PyStr.strip l = "" \/ 2 <= commas (PyStr.strip l)
                 \/ key_of_line l <> key_of_line " a , 2 ").
  { intros l [->|[->|Hnil%elem_of_nil]%elem_of_cons]%elem_of_cons; [| | done].
    - right; right. vm_compute. discriminate.
    - right; left. vm_compute. lia. }
  split; [exact h1 | split; [exact h2 |]].
  destruct (@X1_last_line_for_a_term_wins env ["a,1"] ["b,3"; "x,y,z"]
              " a , 2 " [] (world_of []) h1 h2 h3)
    as (vocab' & w' & Hload & _ & Hpair).
  exists vocab', w'. split; [exact Hload |].
  exact (Hpair "a " " 2" eq_refl).
Defined.

Lemma X2_witness :
  let w := world_of [("v.csv", text_file [" q , r "; "zz"; "q, s"])] in
  @load_vocabulary env "v.csv" w = (Some [("q", Some "s"); ("zz", None)], w)
  /\ NoDup (dict_keys [("q", Some "s"); ("zz", None)]).
Proof.
  intros w.
  assert (h : @load_vocabulary env "v.csv" w
              = (Some [("q", Some "s"); ("zz", None)], w))
    by (vm_compute; reflexivity).
  split; [exact h |].
  exact (proj1 (@X2_loaded_entries_are_trimmed env "v.csv" w w _ h)).
Defined.

Lemma X3_witness :
  let w := world_of [] in
  @load_lines env ["Ann"; " Bo "] [] w = (inr [("Ann", None); ("Bo", None)], w)
  /\ Forall (fun kv : string * option string => kv.2 = None)
       [("Ann", None); ("Bo", None)].
Proof.
  intros w.
  assert (h : @load_lines env ["Ann"; " Bo "] [] w
              = (inr [("Ann", None); ("Bo", None)], w))
    by (vm_compute; reflexivity).
  split; [exact h |].
  apply (proj1 (@X3_vocabulary_fits_one_mode env ["Ann"; " Bo "] w w _ h)).
  intros l [->|[->|Hnil%elem_of_nil]%elem_of_cons]%elem_of_cons;
    [reflexivity | reflexivity | done].
Defined.

Lemma X6_witness :
  let w := world_of [("in.txt", File (bytes "a b a"))] in
  "in.txt" <> "out.txt"
  /\ fs (@replace_terms env "in.txt" [("a", Some "x")] "out.txt" false w).2
       !! "in.txt"
     = fs w !! "in.txt".
Proof.
  intros w.
  assert (h : "in.txt" <> "out.txt") by discriminate.
  split; [exact h |].
  exact (proj1 (@X6_replace_terms_changes_only_the_output env "in.txt" "out.txt"
                  [("a", Some "x")] false w) "in.txt" h).
Defined.

Lemma X7_witness :
  let w := world_of [("dir", Dir)] in
  fs w !! "nope.txt" = None
  /\ @replace_terms env "nope.txt" [] "out.txt" false w
     = (1%Z, @emit env ERROR "Input file not found: nope.txt" w)
  /\ fs w !! "dir" = Some Dir
  /\ @replace_terms env "dir" [] "out.txt" false w
     = (1%Z, @emit env ERROR "Error processing file: Is a directory: dir" w).
Proof.
  intros w.
  assert (h1 : fs w !! "nope.txt" = None) by (vm_compute; reflexivity).
  assert (h2 : fs w !! "dir" = Some Dir) by (vm_compute; reflexivity).
  split; [exact h1 | split; [| split; [exact h2 |]]].
  - exact (proj1 (@X7_failure_before_output_is_opened env "nope.txt" "out.txt"
                    [] false w) h1).
  - exact (proj1 (proj2 (@X7_failure_before_output_is_opened env "dir" "out.txt"
                           [] false w)) h2).
Defined.

Lemma X8_witness :
  let w := world_of [("in.txt", File (bytes "a b a"))] in
  fs w !! "in.txt" = Some (File (bytes "a b a"))
  /\ fs w !! "results/out.txt" = None
  /\ parent "results/out.txt" = Some "results"
  /\ fs w !! "results" = None
  /\ @replace_terms env "in.txt" [("a", Some "x")] "results/out.txt" false w
     = (1%Z, @emit env ERROR "Input file not found: in.txt" w).
Proof.
  intros w.
  assert (h1 : fs w !! "in.txt" = Some (File (bytes "a b a")))
    by (vm_compute; reflexivity).
  assert (h2 : fs w !! "results/out.txt" = None) by (vm_compute; reflexivity).
  assert (h3 : parent "results/out.txt" = Some "results")
    by (vm_compute; reflexivity).
  assert (h4 : fs w !! "results" = None) by (vm_compute; reflexivity).
  split; [exact h1 | split; [exact h2 | split; [exact h3 | split; [exact h4 |]]]].
  exact (@X8_missing_output_directory_is_reported_as_missing_input env
           "in.txt" "results/out.txt" "results" [("a", Some "x")] false w
           (bytes "a b a") decode_ascii h1 eq_refl h2 h3 h4).
Defined.

Lemma X9_witness :
  let w := @World blind (list_to_map [("in.txt", File [Byte.xff])]) INFO [] 0 in
  fs w !! "in.txt" = Some (File [Byte.xff])
  /\ decode_utf8 [Byte.xff] = None
  /\ (@replace_terms blind "in.txt" [] "out.txt" false w).1 = 1%Z
  /\ fs (@replace_terms blind "in.txt" [] "out.txt" false w).2 !! "out.txt"
     = Some (File []).
Proof.
  intros w.
  assert (h0 : "in.txt" <> "out.txt") by discriminate.
  assert (h1 : fs w !! "in.txt" = Some (File [Byte.xff]))
    by (vm_compute; reflexivity).
  assert (h2 : (@open_w blind "out.txt" w).1 = inr tt)
    by (vm_compute; reflexivity).
  split; [exact h1 | split; [reflexivity |]].
  destruct (@X9_undecodable_input_leaves_empty_output blind "in.txt" "out.txt"
              [] false w [Byte.xff] decode_utf8 h0 h1 eq_refl eq_refl h2)
    as [Hrun Hout].
  split; [rewrite Hrun; reflexivity | exact Hout].
Defined.

Lemma X10_witness :
  let w := world_of [("notes.txt", File (bytes "Hello Ann"))] in
  fs w !! "notes.txt" = Some (File (bytes "Hello Ann"))
  /\ (@replace_terms env "notes.txt" [("Ann", Some "X")] "notes.txt" false w).1
     = 0%Z
  /\ fs (@replace_terms env "notes.txt" [("Ann", Some "X")] "notes.txt" false w).2
       !! "notes.txt"
     = Some (File []).
Proof.
  intros w.
  assert (h1 : fs w !! "notes.txt" = Some (File (bytes "Hello Ann")))
    by (vm_compute; reflexivity).
  assert (h2 : Forall (fun kv : string * option string => is_Some kv.2)
                 [("Ann", Some "X")])
    by (constructor; [by eexists | constructor]).
  assert (h3 : Forall (fun kv : string * option string => kv.1 <> "")
                 [("Ann", Some "X")])
    by (constructor; [discriminate | constructor]).
  split; [exact h1 |].
  exact (@X10_run_in_place_empties_the_file env "notes.txt" [("Ann", Some "X")] w
           (bytes "Hello Ann") decode_ascii h1 eq_refl eq_refl h2 h3).
Defined.

Lemma X11_witness :
  let w := world_of [("in.txt", File (bytes "Ann met Bo; Ann left"))] in
  let vocab := [("Ann", None); ("Bo", None)] in
  fs w !! "in.txt" = Some (File (bytes "Ann met Bo; Ann left"))
  /\ (@replace_terms env "in.txt" vocab "out.txt" true w).1 = 0%Z
  /\ fs (@replace_terms env "in.txt" vocab "out.txt" true w).2 !! "out.txt"
     = Some (File (bytes "Alice Doe met Bob Roe; Alice Doe left"))
  /\ rand (@replace_terms env "in.txt" vocab "out.txt" true w).2 = 2.
Proof.
  intros w vocab.
  assert (h1 : fs w !! "in.txt" = Some (File (bytes "Ann met Bo; Ann left")))
    by (vm_compute; reflexivity).
  assert (h2 : (@open_w env "out.txt" w).1 = inr tt)
    by (vm_compute; reflexivity).
  assert (h3 : Forall (fun kv : string * option string => kv.2 = None) vocab)
    by (repeat constructor).
  split; [exact h1 |].
  exact (@X11_randomized_run_writes_generated_names env "in.txt" "out.txt" vocab w
           (bytes "Ann met Bo; Ann left") decode_ascii "Ann met Bo; Ann left"
           h1 eq_refl h2 eq_refl h3).
Defined.

Lemma X12_witness :
  let vocab := [("zz", Some "y"); ("a", Some "a")] in
  contains "zz" "a b" = false
  /\ @literal_loop env vocab "a b" (world_of []) = (inr "a b", world_of []).
Proof.
  intros vocab. split; [reflexivity |].
  apply (@X12_literal_loop_without_effect env).
  constructor; [| constructor; [| constructor]].
  - exists "y". split; [reflexivity | left; reflexivity].
  - exists "a". split; [reflexivity | right; reflexivity].
Defined.

Lemma X13_witness :
  let w := world_of [("in.txt", File (bytes "a b a"));
                     ("out.txt", File (bytes "old"))] in
  let a := @Args "in.txt" "v.csv" "out.txt" false INFO in
  fs w !! "v.csv" = None
  /\ (@main env a w).1 = 1%Z
  /\ fs (@main env a w).2 = fs w.
Proof.
  intros w a.
  assert (h : fs w !! vocabulary_file a = None) by (vm_compute; reflexivity).
  split; [exact h |].
  exact (proj2 (@X13_main_changes_only_the_output env a w) (or_intror (or_introl h))).
Defined.

Lemma X16_witness :
  let sep := String TextIO.CR (String TextIO.LF "") in
  let text := "a" +:+ String TextIO.LF "b" in
  no_cr text = true
  /\ TextIO.universal_newlines (TextIO.write_newlines sep text) = text.
Proof.
  intros sep text. split; [reflexivity |].
  exact (proj1 (X16_written_text_reads_back sep text (or_intror eq_refl) eq_refl)).
Defined.

End MoreRuns.

Section OrderRuns.
Import Sample.

Lemma X18_witness :
  let w := world_of [] in
  @load_lines env ["a,1"; "b,2"] [] w = (inr [("a", Some "1"); ("b", Some "2")], w)
  /\ PyStr.strip "a,3" <> ""
  /\ commas (PyStr.strip "a,3") <= 1
  /\ exists v2 w2,
       @load_lines env (["a,1"; "b,2"] ++ ["a,3"]) [] w = (inr v2, w2)
       /\ dict_keys v2 = ["a"; "b"].
Proof.
  intros w.
  assert (h1 : @load_lines env ["a,1"; "b,2"] [] w
               = (inr [("a", Some "1"); ("b", Some "2")], w))
    by (vm_compute; reflexivity).
  assert (h2 : PyStr.strip "a,3" <> "") by (vm_compute; discriminate).
  assert (h3 : commas (PyStr.strip "a,3") <= 1) by (vm_compute; lia).
  split; [exact h1 | split; [exact h2 | split; [exact h3 |]]].
  destruct (@X18_restated_term_keeps_its_position env ["a,1"; "b,2"] "a,3" []
              _ w w h1 h2 h3) as (v2 & w2 & Hload & Hkeys).
  exists v2, w2. split; [exact Hload |].
  rewrite Hkeys. reflexivity.
Defined.

End OrderRuns.
